(** * Audio recognition toolkit: shallow embedding of
    [teacher_style_identification.audio] (utils, features, recognizer,
    evaluation).

    Python floats are modelled as the real numbers of the Standard Library
    ([R]); [math.sqrt], [math.cos], [math.sin] and [math.pi] are [sqrt],
    [cos], [sin] and [PI].  Python ints are [Z].  Raised exceptions are the
    [Err] branch of a result type; the recognizer's mutable attributes are
    threaded through an explicit state monad.  The module [Binary64]
    embeds the path from a WAV file to a stored embedding once more over
    IEEE-754 binary64 floats, where exact-arithmetic facts may fail. *)

From Stdlib Require Import String ZArith Bool Lia.
From Stdlib Require Import List.
From Stdlib Require Import Reals Lra Psatz.
From Stdlib Require Floats.
Import ListNotations.

Open Scope Z_scope.

(* ------------------------------------------------------------------ *)
(** ** Exceptions and the result monad *)

(** The Python exceptions the modelled code can raise. *)
Inductive exn : Type :=
| FileNotFoundError (msg : string)
| ValueError (msg : string)
| RuntimeError (msg : string)
| ZeroDivisionError
| IndexError
| WaveError (msg : string)
| StructError (msg : string)
| OverflowError (msg : string).

Inductive result (A : Type) : Type :=
| Ok (a : A)
| Err (e : exn).
Arguments Ok {A} a.
Arguments Err {A} e.

Definition bind {A B : Type} (m : result A) (k : A -> result B) : result B :=
  match m with
  | Ok a => k a
  | Err e => Err e
  end.

Notation "'let*' x := m 'in' k" := (bind m (fun x => k))
  (at level 200, x name, m at level 100, k at level 200).
Notation "'let*' ' p := m 'in' k" := (bind m (fun x => match x with p => k end))
  (at level 200, p pattern, m at level 100, k at level 200).

(** [map] in the result monad: the first exception aborts the loop. *)
Fixpoint map_result {A B : Type} (f : A -> result B) (l : list A) : result (list B) :=
  match l with
  | [] => Ok []
  | x :: xs =>
      let* y := f x in
      let* ys := map_result f xs in
      Ok (y :: ys)
  end.

(** Python list indexing [xs[k]]: negative indices count from the end,
    anything else out of range raises [IndexError]. *)
Definition py_index {A : Type} (xs : list A) (k : Z) : result A :=
  let n := Z.of_nat (length xs) in
  if (0 <=? k) && (k <? n) then
    match nth_error xs (Z.to_nat k) with Some v => Ok v | None => Err IndexError end
  else if (- n <=? k) && (k <? 0) then
    match nth_error xs (Z.to_nat (n + k)) with Some v => Ok v | None => Err IndexError end
  else Err IndexError.

(* ------------------------------------------------------------------ *)
(** ** Byte-level layout of [array] items (little-endian host) *)

(** [array(typecode).tobytes()] for one item of [w] bytes. *)
Fixpoint le_bytes (w : nat) (u : Z) : list Z :=
  match w with
  | O => []
  | S w' => (u mod 256) :: le_bytes w' (u / 256)
  end.

Definition item_to_bytes (w : nat) (v : Z) : list Z :=
  le_bytes w (v mod 2 ^ (8 * Z.of_nat w)).

(** Unsigned value of a little-endian byte string. *)
Fixpoint le_value (bs : list Z) : Z :=
  match bs with
  | [] => 0
  | b :: bs' => b + 256 * le_value bs'
  end.

(** Item of [w] bytes as typecode ['B'] (unsigned) or ['h'] / ['i'] (signed). *)
Definition item_of_bytes (signed : bool) (w : nat) (bs : list Z) : Z :=
  let u := le_value bs in
  if signed && (2 ^ (8 * Z.of_nat w - 1) <=? u) then u - 2 ^ (8 * Z.of_nat w) else u.

Fixpoint chunks {A : Type} (fuel : nat) (w : nat) (l : list A) : list (list A) :=
  match fuel with
  | O => []
  | S fuel' =>
      match l with
      | [] => []
      | _ => firstn w l :: chunks fuel' w (skipn w l)
      end
  end.

(** [array(typecode).frombytes(raw)]: raises when the byte count is not a
    multiple of the item size. *)
Definition array_frombytes (signed : bool) (w : nat) (raw : list Z) : result (list Z) :=
  if Nat.eqb (length raw mod w) 0 then
    Ok (map (item_of_bytes signed w) (chunks (length raw) w raw))
  else Err (ValueError "bytes length not a multiple of item size").

Definition array_tobytes (w : nat) (items : list Z) : list Z :=
  flat_map (item_to_bytes w) items.

(* ------------------------------------------------------------------ *)
(** ** WAV container and file store *)

(** What [wave] reads from / writes to a file header, plus the data chunk. *)
Record wav_file : Type := mk_wav {
  nchannels : Z;
  sampwidth : Z;
  framerate : Z;
  nframes : Z;
  wav_data : list Z
}.

(** The file system, as seen by [Path.exists] and [wave.open]. *)
Definition filesystem := string -> option wav_file.

Definition fs_update (fs : filesystem) (p : string) (f : wav_file) : filesystem :=
  fun q => if String.eqb q p then Some f else fs q.

(** [SUPPORTED_SAMPLE_WIDTHS = {1: "B", 2: "h", 4: "i"}]: whether the
    typecode is signed. *)
Definition supported_typecode (w : Z) : option bool :=
  if w =? 1 then Some false
  else if w =? 2 then Some true
  else if w =? 4 then Some true
  else None.

(** The channel downmix: [sum(chunk) / len(chunk)] followed by [int(..)],
    i.e. a quotient truncated towards zero. *)
Definition downmix (channels : Z) (audio : list Z) : list Z :=
  map (fun chunk => Z.quot (fold_left Z.add chunk 0) (Z.of_nat (length chunk)))
      (chunks (length audio) (Z.to_nat channels) audio).

(** The integer samples [load_wav_mono] scales: [frombytes] of the frames
    read, downmixed when there is more than one channel. *)
Definition decoded_frames (f : wav_file) : result (list Z) :=
  match supported_typecode (sampwidth f) with
  | None => Err (ValueError "Unsupported sample width")
  | Some signed =>
      let raw := firstn (Z.to_nat (nframes f * (nchannels f * sampwidth f))) (wav_data f) in
      let* audio := array_frombytes signed (Z.to_nat (sampwidth f)) raw in
      Ok (if 1 <? nchannels f then downmix (nchannels f) audio else audio)
  end.

Open Scope R_scope.

(** Scaling of one decoded integer sample. *)
Definition scale_sample (sample_width : Z) (value : Z) : R :=
  if (sample_width =? 1)%Z then (IZR value - 128) / 128
  else IZR value / IZR (2 ^ (8 * sample_width - 1)).

(** [load_wav_mono(path)]. *)
Definition load_wav_mono (fs : filesystem) (path : string) : result (list R * Z) :=
  match fs path with
  | None => Err (FileNotFoundError "Audio file not found")
  | Some f =>
      if ((nchannels f <=? 0) || (sampwidth f <=? 0))%Z then Err (WaveError "bad header")
      else
        let* audio := decoded_frames f in
        Ok (map (scale_sample (sampwidth f)) audio, framerate f)
  end.

(** Python's [int(x)] on a float: truncation towards zero. *)
Definition py_int (x : R) : Z :=
  if Rle_dec 0 x then Int_part x else (- Int_part (- x))%Z.

(** The header fields [wave] packs with [struct.pack('<L', ..)]: the RIFF
    size [36 + datalength], the frame rate and the byte rate
    [nchannels * framerate * sampwidth]; [struct.error] when one of them is
    not below [2 ^ 32]. *)
Definition header_fits (nchannels sampwidth framerate datalength : Z) : bool :=
  (36 + datalength <? 2 ^ 32)%Z && (framerate <? 2 ^ 32)%Z &&
  (nchannels * framerate * sampwidth <? 2 ^ 32)%Z.

(** [save_wav_mono(path, signal, sample_rate)]: clip, quantise with
    [int(value * 32767.0)], write one 16-bit channel.  [setframerate]
    refuses a non-positive frame rate; [writeframes] writes the header
    first, which raises [struct.error] when a field overflows. *)
Definition save_wav_mono (fs : filesystem) (path : string) (signal : list R)
    (sample_rate : Z) : result filesystem :=
  let clipped := map (fun value => Rmin 1 (Rmax (-1) value)) signal in
  let int_samples := map (fun value => py_int (value * 32767)) clipped in
  if (sample_rate <=? 0)%Z then Err (WaveError "bad frame rate")
  else
    let raw := array_tobytes 2 int_samples in
    let nframes := (Z.of_nat (length raw) / 2)%Z in
    if header_fits 1 2 sample_rate (nframes * 2) then
      Ok (fs_update fs path (mk_wav 1 2 sample_rate nframes raw))
    else Err (StructError "'L' format requires 0 <= number <= 4294967295").

(* ------------------------------------------------------------------ *)
(** ** Feature extractor ([features.py]) *)

(** Python's [/] on floats. *)
Definition py_div (x y : R) : result R :=
  if Req_EM_T y 0 then Err ZeroDivisionError else Ok (x / y).

(** [math.floor] ([Int_part] is the floor of a real). *)
Definition py_floor (x : R) : Z := Int_part x.

(** Python 3 [round(x)]: to the nearest integer, halves to the even one. *)
Definition py_round (x : R) : Z :=
  let f := py_floor x in
  let d := x - IZR f in
  if Rlt_dec d (1 / 2) then f
  else if Rlt_dec (1 / 2) d then (f + 1)%Z
  else if Z.even f then f else (f + 1)%Z.

Fixpoint sum_R (l : list R) : R :=
  match l with
  | [] => 0
  | x :: xs => x + sum_R xs
  end.

(** The dataclass [HarmonicFeatureExtractor]. *)
Record extractor : Type := mk_extractor {
  sample_rate : Z;
  analysis_window : R;
  hop_length : R;
  probe_frequencies : list R
}.

Definition default_extractor : extractor :=
  mk_extractor 16000 0.025 0.010 [120; 240; 480; 960].

Definition len_R {A : Type} (l : list A) : R := INR (length l).

(** One iteration of the [_resample] loop, output index [i]. *)
Definition resample_value (signal : list R) (step : R) (i : nat) : result R :=
  let pos := INR i * step in
  let left := py_floor pos in
  let right := Z.min (left + 1) (Z.of_nat (length signal) - 1) in
  let frac := pos - IZR left in
  let* sl := py_index signal left in
  let* sr := py_index signal right in
  Ok ((1 - frac) * sl + frac * sr).

(** [HarmonicFeatureExtractor._resample]. *)
Definition resample (signal : list R) (orig_sr target_sr : Z) : result (list R) :=
  if ((orig_sr =? target_sr)%Z || match signal with [] => true | _ => false end)
  then Ok signal
  else
    let* duration := py_div (len_R signal) (IZR orig_sr) in
    let target_length := Z.max 1 (py_round (duration * IZR target_sr)) in
    let* step := py_div (len_R signal - 1) (IZR (Z.max (target_length - 1) 1)) in
    map_result (resample_value signal step) (seq 0 (Z.to_nat target_length)).

(** Crossing test of the zero-crossing loop:
    [(prev >= 0 > value) or (prev <= 0 < value)]. *)
Definition is_crossing (prev value : R) : bool :=
  (if Rle_dec 0 prev then if Rlt_dec value 0 then true else false else false)
  || (if Rle_dec prev 0 then if Rlt_dec 0 value then true else false else false).

(** The loop [for value in signal[1:]], carrying [prev]. *)
Fixpoint count_crossings (prev : R) (rest : list R) : Z :=
  match rest with
  | [] => 0
  | value :: rest' =>
      ((if is_crossing prev value then 1 else 0) + count_crossings value rest')%Z
  end.

(** [HarmonicFeatureExtractor._zero_crossing_rate]. *)
Definition zero_crossing_rate (signal : list R) : result R :=
  match signal with
  | [] | [_] => Ok 0
  | x0 :: rest => py_div (IZR (count_crossings x0 rest)) (len_R signal - 1)
  end.

Fixpoint enumerate_from {A : Type} (k : nat) (l : list A) : list (nat * A) :=
  match l with
  | [] => []
  | x :: xs => (k, x) :: enumerate_from (S k) xs
  end.

(** [HarmonicFeatureExtractor._average_power]. *)
Definition average_power (signal : list R) (frequency : R) (sr : Z) : result R :=
  if Rle_dec frequency 0 then Ok 0
  else
    let* angular := py_div (2 * PI * frequency) (IZR sr) in
    let cos_sum := sum_R (map (fun '(index, value) => value * cos (angular * INR index))
                              (enumerate_from 0 signal)) in
    let sin_sum := sum_R (map (fun '(index, value) => value * sin (angular * INR index))
                              (enumerate_from 0 signal)) in
    let* scale := py_div 2 (len_R signal) in
    Ok (scale * (cos_sum ^ 2 + sin_sum ^ 2)).

(** The signal [extract] analyses: resampled when the rate differs. *)
Definition prepared_signal (cfg : extractor) (signal : list R) (sr : Z) : result (list R) :=
  if negb (sr =? sample_rate cfg)%Z then resample signal sr (sample_rate cfg) else Ok signal.

(** [HarmonicFeatureExtractor.extract]. *)
Definition extract (cfg : extractor) (signal0 : list R) (sr : Z) : result (list R) :=
  let* signal := prepared_signal cfg signal0 sr in
  match signal with
  | [] => Ok (repeat 0 (length (probe_frequencies cfg) + 4))
  | _ =>
      let* mean := py_div (sum_R signal) (len_R signal) in
      let* variance := py_div (sum_R (map (fun x => (x - mean) ^ 2) signal)) (len_R signal) in
      let std := sqrt variance in
      let* mean_abs := py_div (sum_R (map Rabs signal)) (len_R signal) in
      let* zero_crossings := zero_crossing_rate signal in
      let* powers := map_result (fun freq => average_power signal freq (sample_rate cfg))
                                (probe_frequencies cfg) in
      Ok ([mean_abs; std; variance; zero_crossings] ++ powers)
  end.

(* ------------------------------------------------------------------ *)
(** ** Samples, recognizer state and its monad ([data.py], [recognizer.py]) *)

(** [AudioSample] (the [metadata] mapping as an association list). *)
Record audio_sample : Type := mk_sample {
  path : string;
  transcript : string;
  metadata : option (list (string * string))
}.

Record recognition_result : Type := mk_recognition_result {
  rr_sample : audio_sample;
  predicted_transcript : string;
  distance : R
}.

(** The attributes of a [NearestNeighborRecognizer] instance. *)
Record rec_state : Type := mk_rec_state {
  feature_extractor : extractor;
  embeddings : list (list R);
  transcripts : list string
}.

Definition init_state (cfg : extractor) : rec_state := mk_rec_state cfg [] [].

(** Methods run against the mutable recognizer; an exception keeps the
    attribute writes made before it. *)
Definition M (A : Type) : Type := rec_state -> result A * rec_state.

Definition ret {A : Type} (a : A) : M A := fun st => (Ok a, st).
Definition mbind {A B : Type} (m : M A) (k : A -> M B) : M B :=
  fun st => match m st with
            | (Ok a, st') => k a st'
            | (Err e, st') => (Err e, st')
            end.
Definition raise {A : Type} (e : exn) : M A := fun st => (Err e, st).
Definition get : M rec_state := fun st => (Ok st, st).
Definition lift {A : Type} (r : result A) : M A := fun st => (r, st).
Definition set_embeddings (e : list (list R)) : M unit :=
  fun st => (Ok tt, mk_rec_state (feature_extractor st) e (transcripts st)).
Definition set_transcripts (t : list string) : M unit :=
  fun st => (Ok tt, mk_rec_state (feature_extractor st) (embeddings st) t).

Notation "x <- m ;; k" := (mbind m (fun x => k))
  (at level 61, m at next level, k at level 200, right associativity).
Notation "' p <- m ;; k" := (mbind m (fun x => match x with p => k end))
  (at level 61, p pattern, m at next level, k at level 200, right associativity).
Notation "m ;; k" := (mbind m (fun _ : unit => k))
  (at level 61, k at level 200, right associativity).

Fixpoint mapM {A B : Type} (f : A -> M B) (l : list A) : M (list B) :=
  match l with
  | [] => ret []
  | x :: xs => y <- f x ;; ys <- mapM f xs ;; ret (y :: ys)
  end.

(** [NearestNeighborRecognizer._normalize]. *)
Definition sumsq (v : list R) : R := sum_R (map (fun value => value * value) v).

Definition normalize (vector : list R) : list R :=
  let norm := sqrt (sumsq vector) in
  if Req_EM_T norm 0 then map (fun _ => 0) vector
  else map (fun value => value / norm) vector.

(** [NearestNeighborRecognizer._cosine_similarity]: [sum] over [zip]. *)
Definition cosine_similarity (a b : list R) : R :=
  sum_R (map (fun '(x, y) => x * y) (combine a b)).

Definition is_fitted (st : rec_state) : bool :=
  match embeddings st with [] => false | _ => true end.

Section Recognizer.

(** The files [load_wav_mono] reads. *)
Variable fs : filesystem.

(** The loop body of [fit]: decode, extract, normalise, append. *)
Fixpoint fit_loop (cfg : extractor) (dataset : list audio_sample)
    (embs : list (list R)) (trs : list string) : result (list (list R) * list string) :=
  match dataset with
  | [] => Ok (embs, trs)
  | sample :: rest =>
      let* '(signal, sr) := load_wav_mono fs (path sample) in
      let* features := extract cfg signal sr in
      fit_loop cfg rest (embs ++ [normalize features]) (trs ++ [transcript sample])
  end.

(** [NearestNeighborRecognizer.fit]. *)
Definition fit (dataset : list audio_sample) : M unit :=
  st <- get ;;
  '(embs, trs) <- lift (fit_loop (feature_extractor st) dataset [] []) ;;
  match embs with
  | [] => raise (ValueError "Dataset must contain at least one sample")
  | _ => set_embeddings embs ;; set_transcripts trs
  end.

(** The scan of [predict_sample]: [(best_index, best_similarity)] updated
    on a strictly larger similarity. *)
Definition scan_step (features : list R) (best : Z * R) (ir : nat * list R) : Z * R :=
  let '(index, reference) := ir in
  let similarity := cosine_similarity reference features in
  if Rlt_dec (snd best) similarity then (Z.of_nat index, similarity) else best.

Definition scan (refs : list (list R)) (features : list R) : Z * R :=
  fold_left (scan_step features) (enumerate_from 0 refs) (0%Z, -1).

(** [NearestNeighborRecognizer.predict_sample]. *)
Definition predict_sample (sample : audio_sample) : M recognition_result :=
  st <- get ;;
  if negb (is_fitted st) then
    raise (RuntimeError "Recognizer must be fitted before calling predict_sample")
  else
    '(signal, sr) <- lift (load_wav_mono fs (path sample)) ;;
    features0 <- lift (extract (feature_extractor st) signal sr) ;;
    let features := normalize features0 in
    let '(best_index, best_similarity) := scan (embeddings st) features in
    predicted <- lift (py_index (transcripts st) best_index) ;;
    ret (mk_recognition_result sample predicted (1 - best_similarity)).

(** [NearestNeighborRecognizer.transcribe]. *)
Definition transcribe (samples : list audio_sample) : M (list recognition_result) :=
  mapM predict_sample samples.

End Recognizer.

(* ------------------------------------------------------------------ *)
(** ** Evaluation ([evaluation.py]) *)

(** [RecognitionReport]; [confusion] keeps the insertion order of the
    nested [defaultdict]s. *)
Record recognition_report : Type := mk_report {
  accuracy : R;
  total_samples : Z;
  confusion : list (string * list (string * Z))
}.

(** [d[key] += 1] on a [defaultdict(int)]. *)
Fixpoint incr_count (key : string) (d : list (string * Z)) : list (string * Z) :=
  match d with
  | [] => [(key, 1%Z)]
  | (k, c) :: rest => if String.eqb k key then (k, (c + 1)%Z) :: rest
                      else (k, c) :: incr_count key rest
  end.

(** [confusion[truth][predicted] += 1]. *)
Fixpoint confusion_add (truth pred : string) (m : list (string * list (string * Z)))
    : list (string * list (string * Z)) :=
  match m with
  | [] => [(truth, incr_count pred [])]
  | (k, d) :: rest => if String.eqb k truth then (k, incr_count pred d) :: rest
                      else (k, d) :: confusion_add truth pred rest
  end.

Definition is_correct (r : recognition_result) : bool :=
  String.eqb (predicted_transcript r) (transcript (rr_sample r)).

Section Evaluation.

Variable fs : filesystem.

(** [evaluate_recognizer(dataset, recognizer)]. *)
Definition evaluate_recognizer (dataset : list audio_sample) : M recognition_report :=
  results <- transcribe fs dataset ;;
  let total := Z.of_nat (length results) in
  if (total =? 0)%Z then raise (ValueError "Cannot evaluate on an empty dataset")
  else
    let correct := fold_left (fun acc r => (acc + if is_correct r then 1 else 0)%Z) results 0%Z in
    let conf := fold_left (fun m r => confusion_add (transcript (rr_sample r))
                                                    (predicted_transcript r) m) results [] in
    acc <- lift (py_div (IZR correct) (IZR total)) ;;
    ret (mk_report acc total conf).

End Evaluation.

(** Reading [report.confusion[truth][predicted]]: [None] where Python
    raises [KeyError]. *)
Fixpoint assoc_find {A : Type} (k : string) (l : list (string * A)) : option A :=
  match l with
  | [] => None
  | (k', v) :: rest => if String.eqb k' k then Some v else assoc_find k rest
  end.

Definition confusion_lookup (conf : list (string * list (string * Z))) (truth pred : string)
    : option Z :=
  match assoc_find truth conf with
  | Some d => assoc_find pred d
  | None => None
  end.

(** [AudioDataset(samples)]: the list of samples, refused when empty. *)
Definition audio_dataset (samples : list audio_sample) : result (list audio_sample) :=
  match samples with
  | [] => Err (ValueError "AudioDataset requires at least one sample")
  | _ => Ok samples
  end.

(** [AudioDataset.transcripts]. *)
Definition dataset_transcripts (dataset : list audio_sample) : list string :=
  map (fun sample => transcript sample) dataset.

(** What [fit_loop] stores for one sample: the normalised features of
    its decoded recording. *)
Definition stored_for (fs : filesystem) (cfg : extractor) (sample : audio_sample)
    (e : list R) : Prop :=
  exists signal sr features,
    load_wav_mono fs (path sample) = Ok (signal, sr) /\
    extract cfg signal sr = Ok features /\
    e = normalize features.

(* ------------------------------------------------------------------ *)
(** ** The decode-extract-normalise path over binary64 floats *)

(** The definitions above compute with real numbers.  This module embeds
    the path [fit] takes from a WAV file to a stored embedding once more,
    over the IEEE-754 binary64 numbers of the kernel ([PrimFloat.float]),
    which is what a Python [float] is.  The C library's [cos] and [sin]
    are parameters, and so is the built-in [sum], whose algorithm on floats
    changed with Python 3.12: [sum_naive] up to 3.11, [sum_neumaier] from
    3.12 on.  [x ** 2] is taken as [x * x]. *)
Module Binary64.
Import PrimFloat.
Local Open Scope float_scope.

(** [float(n)] for a Python int: rounded to nearest, ties to even;
    [OverflowError] beyond the float range. *)
Definition py_float (n : Z) : result float :=
  let x := FloatOps.SF2Prim (SpecFloat.binary_normalize FloatOps.prec FloatOps.emax n 0 false) in
  if is_infinity x then Err (OverflowError "int too large to convert to float") else Ok x.

(** Python's [/] on floats. *)
Definition py_div (x y : float) : result float :=
  if y =? 0 then Err ZeroDivisionError else Ok (x / y).

(** [x / n] and [x * n] for a float [x] and an int [n]: [n] is converted
    first. *)
Definition div_int (x : float) (n : Z) : result float :=
  let* y := py_float n in py_div x y.

Definition mul_int (x : float) (n : Z) : result float :=
  let* y := py_float n in Ok (x * y).

(** [a / b] for two ints.  CPython divides [float(a)] by [float(b)] when
    both fit in 53 bits, as every length and frame rate here does. *)
Definition py_truediv (a b : Z) : result float :=
  if (b =? 0)%Z then Err ZeroDivisionError
  else let* x := py_float a in div_int x b.

(** [math.sqrt]. *)
Definition math_sqrt (x : float) : result float :=
  if x <? 0 then Err (ValueError "math domain error") else Ok (sqrt x).

(** The exception [math.floor] and [round] raise on a non-finite float. *)
Definition to_int_error (x : float) : exn :=
  if is_nan x then ValueError "cannot convert float NaN to integer"
  else OverflowError "cannot convert float infinity to integer".

(** The signed integer [m] and exponent [e] with [x = m * 2 ^ e] for a
    finite [x]. *)
Definition finite_parts (x : float) : option (Z * Z) :=
  match FloatOps.Prim2SF x with
  | SpecFloat.S754_zero _ => Some (0%Z, 0%Z)
  | SpecFloat.S754_finite s m e => Some ((if s then Z.neg m else Z.pos m), e)
  | _ => None
  end.

(** [math.floor(x)]. *)
Definition math_floor (x : float) : result Z :=
  match finite_parts x with
  | None => Err (to_int_error x)
  | Some (m, e) => if (0 <=? e)%Z then Ok (m * 2 ^ e)%Z else Ok (m / 2 ^ (- e))%Z
  end.

(** [round(x)]: the nearest int, halves to the even one. *)
Definition py_round (x : float) : result Z :=
  match finite_parts x with
  | None => Err (to_int_error x)
  | Some (m, e) =>
      if (0 <=? e)%Z then Ok (m * 2 ^ e)%Z
      else
        let d := (2 ^ (- e))%Z in
        let q := (m / d)%Z in
        let r := (m mod d)%Z in
        if (2 * r <? d)%Z then Ok q
        else if (d <? 2 * r)%Z then Ok (q + 1)%Z
        else if Z.even q then Ok q else Ok (q + 1)%Z
  end.

(** [sum(xs)] up to Python 3.11: [0 + x1 + x2 + ...] from left to right. *)
Definition sum_naive (xs : list float) : float := fold_left add xs 0.

(** The compensated loop of [sum] over floats from Python 3.12 on. *)
Fixpoint neumaier (f c : float) (xs : list float) : float * float :=
  match xs with
  | [] => (f, c)
  | x :: xs' =>
      let t := f + x in
      let c' := if abs x <=? abs f then c + ((f - t) + x) else c + ((x - t) + f) in
      neumaier t c' xs'
  end.

(** [sum(xs)] from Python 3.12 on: the first item is added to the int
    [0], the rest to the float with a running compensation [c], which is
    added at the end when it is finite and nonzero. *)
Definition sum_neumaier (xs : list float) : float :=
  match xs with
  | [] => 0
  | x :: xs' =>
      let '(f, c) := neumaier (0 + x) 0 xs' in
      if (negb (c =? 0) && is_finite c)%bool then f + c else f
  end.

(** Scaling of one decoded integer sample: [(value - 128) / 128.0] for
    8-bit samples, [value / float(2 ** (8 * sample_width - 1))] otherwise. *)
Definition scale_sample (sample_width : Z) (value : Z) : result float :=
  if (sample_width =? 1)%Z then let* v := py_float (value - 128) in py_div v 128
  else
    let* max_value := py_float (2 ^ (8 * sample_width - 1)) in
    let* v := py_float value in py_div v max_value.

(** [load_wav_mono(path)], on the integer samples [decoded_frames] gives
    (the downmix quotient [sum(chunk) / len(chunk)] is far enough from an
    integer for its float to truncate to the same int). *)
Definition load_wav_mono (fs : filesystem) (path : string) : result (list float * Z) :=
  match fs path with
  | None => Err (FileNotFoundError "Audio file not found")
  | Some f =>
      if ((nchannels f <=? 0) || (sampwidth f <=? 0))%Z then Err (WaveError "bad header")
      else
        let* audio := decoded_frames f in
        let* result := map_result (scale_sample (sampwidth f)) audio in
        Ok (result, framerate f)
  end.

(** One iteration of the [_resample] loop, output index [i]. *)
Definition resample_value (signal : list float) (step : float) (i : nat) : result float :=
  let* pos := mul_int step (Z.of_nat i) in
  let* left := math_floor pos in
  let right := Z.min (left + 1) (Z.of_nat (length signal) - 1) in
  let* fleft := py_float left in
  let frac := pos - fleft in
  let* sl := py_index signal left in
  let* sr := py_index signal right in
  Ok ((1 - frac) * sl + frac * sr).

(** [HarmonicFeatureExtractor._resample]. *)
Definition resample (signal : list float) (orig_sr target_sr : Z) : result (list float) :=
  if ((orig_sr =? target_sr)%Z || match signal with [] => true | _ => false end)%bool
  then Ok signal
  else
    let* duration := py_truediv (Z.of_nat (length signal)) orig_sr in
    let* scaled := mul_int duration target_sr in
    let* rounded := py_round scaled in
    let target_length := Z.max 1 rounded in
    let* step := py_truediv (Z.of_nat (length signal) - 1) (Z.max (target_length - 1) 1) in
    map_result (resample_value signal step) (seq 0 (Z.to_nat target_length)).

(** Crossing test: [(prev >= 0 > value) or (prev <= 0 < value)]. *)
Definition is_crossing (prev value : float) : bool :=
  ((0 <=? prev) && (value <? 0)) || ((prev <=? 0) && (0 <? value)).

Fixpoint count_crossings (prev : float) (rest : list float) : Z :=
  match rest with
  | [] => 0%Z
  | value :: rest' =>
      ((if is_crossing prev value then 1 else 0) + count_crossings value rest')%Z
  end.

(** [HarmonicFeatureExtractor._zero_crossing_rate]. *)
Definition zero_crossing_rate (signal : list float) : result float :=
  match signal with
  | [] | [_] => Ok 0
  | x0 :: rest => py_truediv (count_crossings x0 rest) (Z.of_nat (length signal) - 1)
  end.

(** [math.pi]. *)
Definition math_pi : float := 0x1.921fb54442d18p+1.

(** The dataclass [HarmonicFeatureExtractor]. *)
Record extractor : Type := mk_extractor {
  sample_rate : Z;
  analysis_window : float;
  hop_length : float;
  probe_frequencies : list float
}.

(** The recognizer's attributes. *)
Record rec_state : Type := mk_rec_state {
  feature_extractor : extractor;
  embeddings : list (list float);
  transcripts : list string
}.

Definition init_state (cfg : extractor) : rec_state := mk_rec_state cfg [] [].

(** The real number a finite float denotes. *)
Definition to_R (x : float) : R :=
  match FloatOps.Prim2SF x with
  | SpecFloat.S754_finite s m e => ((if s then - IZR (Z.pos m) else IZR (Z.pos m)) * powerRZ 2 e)%R
  | _ => 0%R
  end.

Section Pipeline.

(** The built-in [sum] on a list of floats. *)
Variable py_sum : list float -> float.
(** [math.cos] and [math.sin]. *)
Variables math_cos math_sin : float -> float.

(** [HarmonicFeatureExtractor._average_power]: the loop accumulates
    [cos_sum] and [sin_sum] in index order. *)
Definition average_power (signal : list float) (frequency : float) (sr : Z) : result float :=
  if frequency <=? 0 then Ok 0
  else
    let* angular := div_int (2 * math_pi * frequency) sr in
    let* sums :=
      fold_left (fun acc '(index, value) =>
                   let* '(cos_sum, sin_sum) := acc in
                   let* angle := mul_int angular (Z.of_nat index) in
                   Ok (cos_sum + value * math_cos angle, sin_sum + value * math_sin angle))
                (enumerate_from 0 signal) (Ok (0, 0)) in
    let '(cos_sum, sin_sum) := sums in
    let* scale := div_int 2 (Z.of_nat (length signal)) in
    Ok (scale * (cos_sum * cos_sum + sin_sum * sin_sum)).

(** The signal [extract] analyses: resampled when the rate differs. *)
Definition prepared_signal (cfg : extractor) (signal : list float) (sr : Z) : result (list float) :=
  if negb (sr =? sample_rate cfg)%Z then resample signal sr (sample_rate cfg) else Ok signal.

(** [HarmonicFeatureExtractor.extract]. *)
Definition extract (cfg : extractor) (signal0 : list float) (sr : Z) : result (list float) :=
  let* signal := prepared_signal cfg signal0 sr in
  match signal with
  | [] => Ok (repeat 0 (length (probe_frequencies cfg) + 4)%nat)
  | _ =>
      let n := Z.of_nat (length signal) in
      let* mean := div_int (py_sum signal) n in
      let* variance := div_int (py_sum (map (fun x => (x - mean) * (x - mean)) signal)) n in
      let* std := math_sqrt variance in
      let* mean_abs := div_int (py_sum (map abs signal)) n in
      let* zero_crossings := zero_crossing_rate signal in
      let* powers := map_result (fun freq => average_power signal freq (sample_rate cfg))
                                (probe_frequencies cfg) in
      Ok ([mean_abs; std; variance; zero_crossings] ++ powers)
  end.

(** [NearestNeighborRecognizer._normalize]; [norm == 0] also holds for
    [-0.0]. *)
Definition normalize (vector : list float) : result (list float) :=
  let* norm := math_sqrt (py_sum (map (fun value => value * value) vector)) in
  if norm =? 0 then Ok (map (fun _ => 0) vector)
  else Ok (map (fun value => value / norm) vector).

(** The loop body of [fit]: decode, extract, normalise, append. *)
Fixpoint fit_loop (fs : filesystem) (cfg : extractor) (dataset : list audio_sample)
    (embs : list (list float)) (trs : list string) : result (list (list float) * list string) :=
  match dataset with
  | [] => Ok (embs, trs)
  | sample :: rest =>
      let* '(signal, sr) := load_wav_mono fs (path sample) in
      let* features := extract cfg signal sr in
      let* e := normalize features in
      fit_loop fs cfg rest (embs ++ [e]) (trs ++ [transcript sample])
  end.

(** [NearestNeighborRecognizer.fit]: the attributes are assigned only
    after the loop, and only when it stored something. *)
Definition fit (fs : filesystem) (dataset : list audio_sample) (st : rec_state)
    : result unit * rec_state :=
  match fit_loop fs (feature_extractor st) dataset [] [] with
  | Err e => (Err e, st)
  | Ok ([], _) => (Err (ValueError "Dataset must contain at least one sample"), st)
  | Ok (embs, trs) => (Ok tt, mk_rec_state (feature_extractor st) embs trs)
  end.

End Pipeline.

(** An extractor without spectral probes, at 16 kHz (the window and hop
    are the floats nearest to [0.025] and [0.010]). *)
Definition plain_extractor : extractor :=
  mk_extractor 16000 0x1.999999999999ap-6 0x1.47ae147ae147bp-7 [].

(** The embedding [fit] stores for the signal [[0.5; 0.25]] at 16 kHz:
    [_normalize([0.375, 0.125, 0.015625, 0.0])], which Python prints as
    [[0.9479430066400371, 0.3159810022133457, 0.03949762527666821, 0.0]]. *)
Definition e_half_quarter : list float :=
  [0x1.e558c927fb535p-1; 0x1.4390861aa78cep-2; 0x1.4390861aa78cep-5; 0].

End Binary64.

(** A float vector that is zero or of Euclidean norm 1, read as reals. *)
Definition float_unit_or_zero (e : list PrimFloat.float) : Prop :=
  Forall (fun x => Binary64.to_R x = 0) e \/ sqrt (sumsq (map Binary64.to_R e)) = 1.

(* ------------------------------------------------------------------ *)
(** * Properties *)

(** ** The reference set: atomic [fit], invariant, read-only prediction *)

(** The reference-set invariant of a recognizer. *)
Definition unit_or_zero (e : list R) : Prop :=
  Forall (fun x => x = 0) e \/ sqrt (sumsq e) = 1.

Definition ref_inv (st : rec_state) : Prop :=
  length (embeddings st) = length (transcripts st) /\
  Forall unit_or_zero (embeddings st).

Lemma sum_R_nonneg_sq : forall v, 0 <= sumsq v.
Proof.
  induction v as [|x v IH]; unfold sumsq in *; simpl; [lra | nra].
Qed.

Lemma sumsq_div : forall v n, n <> 0 ->
  sumsq (map (fun value => value / n) v) = sumsq v / (n * n).
Proof.
  intros v n Hn; induction v as [|x v IH]; unfold sumsq in *; simpl.
  - field; exact Hn.
  - rewrite IH; field; exact Hn.
Qed.

Lemma normalize_unit_or_zero : forall v, unit_or_zero (normalize v).
Proof.
  intro v; unfold normalize, unit_or_zero.
  destruct (Req_EM_T (sqrt (sumsq v)) 0) as [H0 | H0].
  - left; clear H0; induction v; simpl; constructor; auto.
  - right; rewrite sumsq_div by exact H0.
    rewrite sqrt_sqrt by apply sum_R_nonneg_sq.
    assert (Hs : sumsq v <> 0) by (intro E; apply H0; rewrite E; apply sqrt_0).
    unfold Rdiv; rewrite Rinv_r by exact Hs; apply sqrt_1.
Qed.

Lemma fit_loop_inv : forall fs cfg ds embs trs E T,
  fit_loop fs cfg ds embs trs = Ok (E, T) ->
  length embs = length trs -> Forall unit_or_zero embs ->
  length E = length T /\ Forall unit_or_zero E.
Proof.
  intros fs cfg ds; induction ds as [|s ds IH]; intros embs trs E T H Hl Hf; simpl in H.
  - inversion H; subst; auto.
  - destruct (load_wav_mono fs (path s)) as [[sig sr]|e]; simpl in H; [|discriminate].
    destruct (extract cfg sig sr) as [feats|e]; simpl in H; [|discriminate].
    apply (IH _ _ _ _ H).
    + rewrite !length_app; simpl; lia.
    + apply Forall_app; split; [exact Hf | constructor; [apply normalize_unit_or_zero | constructor]].
Qed.

Lemma predict_sample_state : forall fs sample st,
  snd (predict_sample fs sample st) = st.
Proof.
  intros fs sample st; unfold predict_sample, mbind, get, lift, raise, ret; simpl.
  destruct (negb (is_fitted st)); simpl; [reflexivity|].
  destruct (load_wav_mono fs (path sample)) as [[sig sr]|e]; simpl; [|reflexivity].
  destruct (extract (feature_extractor st) sig sr) as [f|e]; simpl; [|reflexivity].
  destruct (scan (embeddings st) (normalize f)) as [bi bs]; simpl.
  destruct (py_index (transcripts st) bi); reflexivity.
Qed.

Lemma transcribe_state : forall fs samples st,
  snd (transcribe fs samples st) = st.
Proof.
  intros fs samples; unfold transcribe; induction samples as [|s ss IH]; intro st; simpl;
    [reflexivity|].
  unfold mbind at 1.
  pose proof (predict_sample_state fs s st) as Hp.
  destruct (predict_sample fs s st) as [[r|e] st1]; simpl in Hp; subst; [|reflexivity].
  unfold mbind; specialize (IH st).
  destruct (mapM (predict_sample fs) ss st) as [[rs|e] st2]; simpl in *; subst; reflexivity.
Qed.

(** C6: [fit] is atomic: when it raises (decode error, extraction error or
    an empty dataset) the recognizer's attributes, and so its reference set
    (embeddings and transcripts), are exactly those it had before the call. *)
Theorem fit_atomic : forall fs dataset st e st',
  fit fs dataset st = (Err e, st') -> st' = st.
Proof.
  intros fs dataset st e st' H; unfold fit, mbind, get, lift in H; simpl in H.
  destruct (fit_loop fs (feature_extractor st) dataset [] []) as [[embs trs]|e0];
    [|inversion H; reflexivity].
  destruct embs as [|x xs]; unfold raise in H; [inversion H; reflexivity|].
  unfold set_embeddings, set_transcripts in H; discriminate.
Qed.

Lemma fit_loop_stored : forall fs cfg ds embs trs E T,
  fit_loop fs cfg ds embs trs = Ok (E, T) ->
  T = trs ++ map transcript ds /\
  exists E', E = embs ++ E' /\ Forall2 (stored_for fs cfg) ds E'.
Proof.
  intros fs cfg ds; induction ds as [|s ds IH]; intros embs trs E T H; simpl in H.
  - injection H as <- <-; split; [rewrite app_nil_r; reflexivity|].
    exists []; split; [rewrite app_nil_r; reflexivity | constructor].
  - destruct (load_wav_mono fs (path s)) as [[sig sr]|e] eqn:El; simpl in H; [|discriminate].
    destruct (extract cfg sig sr) as [feats|e] eqn:Ex; simpl in H; [|discriminate].
    destruct (IH _ _ _ _ H) as [HT [E' [HE HF]]]; split.
    + rewrite HT, <- app_assoc; reflexivity.
    + exists (normalize feats :: E'); split.
      * rewrite HE, <- app_assoc; reflexivity.
      * constructor; [exists sig, sr, feats; split; [|split]; reflexivity || assumption|].
        exact HF.
Qed.

(** C9 (amended): after a successful [fit] the stored transcripts are the
    dataset's labels in order, and the stored embeddings are, sample by
    sample, the normalised feature vectors of the decoded recordings: the
    zero vector when the features have norm 0, otherwise the features
    divided by their norm, so that (in exact arithmetic) the two lists
    have equal length and every embedding is the zero vector or has
    Euclidean norm 1; [predict_sample] and [transcribe] leave that state
    unchanged. *)
Theorem fit_reference_invariant : forall fs dataset st st',
  fit fs dataset st = (Ok tt, st') ->
  transcripts st' = map transcript dataset /\
  Forall2 (stored_for fs (feature_extractor st)) dataset (embeddings st') /\
  ref_inv st' /\
  (forall fs' sample, snd (predict_sample fs' sample st') = st') /\
  (forall fs' samples, snd (transcribe fs' samples st') = st').
Proof.
  intros fs dataset st st' H.
  assert (Hpres : (forall fs' sample, snd (predict_sample fs' sample st') = st') /\
                  (forall fs' samples, snd (transcribe fs' samples st') = st'))
    by (split; intros; [apply predict_sample_state | apply transcribe_state]).
  unfold fit, mbind, get, lift in H; simpl in H.
  destruct (fit_loop fs (feature_extractor st) dataset [] []) as [[embs trs]|e0] eqn:Hl;
    [|discriminate].
  destruct embs as [|x xs]; unfold raise in H; [discriminate|].
  unfold set_embeddings, set_transcripts in H; simpl in H.
  injection H as <-; simpl in Hpres |- *.
  destruct (fit_loop_inv _ _ _ _ _ _ _ Hl eq_refl (Forall_nil _)) as [Hlen Hf].
  destruct (fit_loop_stored _ _ _ _ _ _ _ Hl) as [HT [E' [HE HF]]].
  simpl in HT, HE; subst trs.
  split; [reflexivity|]; split; [rewrite HE; exact HF|].
  split; [split; simpl; assumption | exact Hpres].
Qed.

(** ** Evaluation *)

Lemma count_correct : forall (results : list recognition_result) acc,
  fold_left (fun acc r => (acc + if is_correct r then 1 else 0)%Z) results acc =
  (acc + Z.of_nat (length (filter is_correct results)))%Z.
Proof.
  induction results as [|r rs IH]; intro acc; simpl; [lia|].
  rewrite IH; destruct (is_correct r); simpl; lia.
Qed.

(** C8: over the results [transcribe] produces, [evaluate_recognizer]
    reports [accuracy] = (number of results whose predicted label equals
    the sample's label) / (number of results) and [total_samples] = the
    number of results; on an empty result list it raises the
    empty-result-set [ValueError]. *)
Theorem evaluate_accuracy : forall fs dataset st results st1,
  transcribe fs dataset st = (Ok results, st1) ->
  (results = [] ->
     evaluate_recognizer fs dataset st =
       (Err (ValueError "Cannot evaluate on an empty dataset"), st1)) /\
  (results <> [] ->
     exists rep, evaluate_recognizer fs dataset st = (Ok rep, st1) /\
       accuracy rep = IZR (Z.of_nat (length (filter is_correct results)))
                      / IZR (Z.of_nat (length results)) /\
       total_samples rep = Z.of_nat (length results)).
Proof.
  intros fs dataset st results st1 H.
  split; intro Hr; unfold evaluate_recognizer, mbind at 1; rewrite H.
  - subst results; simpl; reflexivity.
  - assert (Hz : (Z.of_nat (length results) =? 0)%Z = false).
    { destruct results; [congruence | simpl; lia]. }
    rewrite Hz, count_correct; simpl.
    unfold mbind, lift, py_div, ret.
    destruct (Req_EM_T (IZR (Z.of_nat (length results))) 0) as [E|E].
    + apply eq_IZR in E; apply Z.eqb_neq in Hz; lia.
    + eexists; split; [reflexivity|]; simpl; split; reflexivity.
Qed.

(** ** Decoding *)

(** C5: [load_wav_mono] scales every decoded frame value [v] (after the
    downmix) as [(v - 128) / 128] for 8-bit files, [v / 32768] for 16-bit
    files and [v / 2147483648] for 32-bit files, and returns the file's
    frame rate. *)
Theorem load_wav_scaling : forall fs p signal rate,
  load_wav_mono fs p = Ok (signal, rate) ->
  exists f audio, fs p = Some f /\ decoded_frames f = Ok audio /\ rate = framerate f /\
    ((sampwidth f = 1%Z /\ signal = map (fun v => (IZR v - 128) / 128) audio) \/
     (sampwidth f = 2%Z /\ signal = map (fun v => IZR v / 32768) audio) \/
     (sampwidth f = 4%Z /\ signal = map (fun v => IZR v / 2147483648) audio)).
Proof.
  intros fs p signal rate H; unfold load_wav_mono in H.
  destruct (fs p) as [f|]; [|discriminate].
  destruct ((nchannels f <=? 0) || (sampwidth f <=? 0))%Z; [discriminate|].
  destruct (decoded_frames f) as [audio|e] eqn:Hd; simpl in H; [|discriminate].
  inversion H; subst; clear H.
  exists f, audio; repeat split; auto.
  unfold decoded_frames, supported_typecode in Hd.
  destruct (sampwidth f =? 1)%Z eqn:H1; [left; split; [lia|]|].
  { apply map_ext; intro v; unfold scale_sample; rewrite H1; reflexivity. }
  destruct (sampwidth f =? 2)%Z eqn:H2; [right; left; split; [lia|]|].
  { apply map_ext; intro v; unfold scale_sample; rewrite H1.
    apply Z.eqb_eq in H2; rewrite H2; reflexivity. }
  destruct (sampwidth f =? 4)%Z eqn:H4; [right; right; split; [lia|]|discriminate].
  apply map_ext; intro v; unfold scale_sample; rewrite H1.
  apply Z.eqb_eq in H4; rewrite H4; reflexivity.
Qed.

(** ** Zero-crossing rate *)

(** The crossing test as the claim words it: one sample [>= 0] and the next
    strictly negative, or one strictly negative and the next [>= 0]. *)
Definition claimed_crossing (a b : R) : bool :=
  (if Rle_dec 0 a then if Rlt_dec b 0 then true else false else false)
  || (if Rlt_dec a 0 then if Rle_dec 0 b then true else false else false).

Definition adjacent_pairs (s : list R) : list (R * R) := combine s (tl s).

Definition zero_crossing_rate_claimed (s : list R) : R :=
  if (length s <? 2)%nat then 0
  else IZR (Z.of_nat (length (filter (fun pr => claimed_crossing (fst pr) (snd pr))
                                     (adjacent_pairs s)))) / (len_R s - 1).

Lemma is_crossing_spec : forall a b,
  is_crossing a b = true <-> (0 <= a /\ b < 0) \/ (a <= 0 /\ 0 < b).
Proof.
  intros a b; unfold is_crossing.
  destruct (Rle_dec 0 a), (Rlt_dec b 0), (Rle_dec a 0), (Rlt_dec 0 b); simpl;
    split; intro H; try discriminate; try reflexivity; lra.
Qed.

Lemma count_crossings_filter : forall rest prev,
  count_crossings prev rest =
  Z.of_nat (length (filter (fun pr => is_crossing (fst pr) (snd pr))
                           (combine (prev :: rest) rest))).
Proof.
  induction rest as [|v rest IH]; intro prev; [reflexivity|].
  change (combine (prev :: v :: rest) (v :: rest)) with
         ((prev, v) :: combine (v :: rest) rest).
  simpl count_crossings; rewrite IH; cbn [filter fst snd].
  set (L := filter _ (combine (v :: rest) rest)).
  destruct (is_crossing prev v); cbn [length]; lia.
Qed.

Lemma len_R_minus_1_neq : forall (x y : R) rest, len_R (x :: y :: rest) - 1 <> 0.
Proof.
  intros; unfold len_R; simpl length; rewrite S_INR, S_INR.
  pose proof (pos_INR (length rest)); lra.
Qed.

Lemma zcr_0_1 : zero_crossing_rate [0; 1] = Ok 1 /\ zero_crossing_rate_claimed [0; 1] = 0.
Proof.
  split.
  - unfold zero_crossing_rate, py_div.
    destruct (Req_EM_T (len_R [0; 1] - 1) 0) as [E|E];
      [exfalso; exact (len_R_minus_1_neq _ _ _ E)|].
    unfold count_crossings, is_crossing, len_R; simpl length.
    destruct (Rle_dec 0 0); [|lra]; destruct (Rlt_dec 1 0); [lra|].
    destruct (Rlt_dec 0 1); [|lra]; simpl.
    f_equal; simpl; field.
  - unfold zero_crossing_rate_claimed, adjacent_pairs, claimed_crossing; simpl.
    destruct (Rle_dec 0 0); [|lra]; destruct (Rlt_dec 1 0); [lra|].
    destruct (Rlt_dec 0 0); [lra|]; simpl; unfold Rdiv; ring.
Qed.

(** C2 (counterexample): on the signal [[0; 1]] the code counts the pair
    (0, 1) as a crossing (rate 1) while the claimed test does not (rate 0). *)
Lemma zcr_claim_counterexample :
  ~ (forall s, (2 <= length s)%nat -> zero_crossing_rate s = Ok (zero_crossing_rate_claimed s)).
Proof.
  intro H; specialize (H [0; 1] (le_n 2)).
  destruct zcr_0_1 as [E1 E2]; rewrite E1, E2 in H; injection H; lra.
Qed.

(** C2 (amended): a pair of adjacent samples [(a, b)] counts as a crossing
    exactly when [a >= 0 > b] or [a <= 0 < b]; for signals of length [>= 2]
    the rate is the number of such pairs divided by [length - 1], and it is
    0 for shorter signals. *)
Theorem zero_crossing_rate_spec :
  (forall a b, is_crossing a b = true <-> (0 <= a /\ b < 0) \/ (a <= 0 /\ 0 < b)) /\
  (forall s, zero_crossing_rate s =
     Ok (if (length s <? 2)%nat then 0
         else IZR (Z.of_nat (length (filter (fun pr => is_crossing (fst pr) (snd pr))
                                            (adjacent_pairs s)))) / (len_R s - 1))).
Proof.
  split; [exact is_crossing_spec|].
  intros [|x0 [|x1 rest]]; [reflexivity | reflexivity|].
  unfold zero_crossing_rate, py_div.
  destruct (Req_EM_T (len_R (x0 :: x1 :: rest) - 1) 0) as [E|E];
    [exfalso; exact (len_R_minus_1_neq _ _ _ E)|].
  rewrite count_crossings_filter; reflexivity.
Qed.

(** ** Resampling *)

Lemma py_floor_spec : forall x, IZR (py_floor x) <= x < IZR (py_floor x) + 1.
Proof.
  intro x; unfold py_floor; destruct (base_Int_part x); lra.
Qed.

Lemma py_index_ok : forall {A : Type} (xs : list A) k d,
  (0 <= k < Z.of_nat (length xs))%Z -> py_index xs k = Ok (nth (Z.to_nat k) xs d).
Proof.
  intros A xs k d Hk; unfold py_index.
  replace ((0 <=? k)%Z && (k <? Z.of_nat (length xs))%Z) with true
    by (symmetry; apply andb_true_iff; split; [apply Z.leb_le | apply Z.ltb_lt]; lia).
  rewrite (nth_error_nth' xs d) by lia; reflexivity.
Qed.

Lemma map_result_ok : forall {A B : Type} (f : A -> result B) g l,
  (forall x, In x l -> f x = Ok (g x)) -> map_result f l = Ok (map g l).
Proof.
  intros A B f g l H; induction l as [|x l IH]; [reflexivity|]; simpl.
  rewrite (H x (or_introl eq_refl)); simpl.
  rewrite IH by (intros; apply H; right; assumption); reflexivity.
Qed.

Lemma py_div_ok : forall x y, y <> 0 -> py_div x y = Ok (x / y).
Proof.
  intros x y Hy; unfold py_div; destruct (Req_EM_T y 0); [contradiction | reflexivity].
Qed.

Lemma len_R_pos : forall {A : Type} (s : list A), s <> [] -> 1 <= len_R s.
Proof.
  intros A [|x s] H; [congruence|]; unfold len_R; simpl length; rewrite S_INR.
  pose proof (pos_INR (length s)); lra.
Qed.

(** The fractional read position of output sample [i] lies in
    [[0, length - 1]]. *)
Lemma resample_pos_bounds : forall (s : list R) (m : Z) (i : nat),
  s <> [] -> (Z.of_nat i < m)%Z ->
  0 <= INR i * ((len_R s - 1) / IZR (Z.max (m - 1) 1)) <= len_R s - 1.
Proof.
  intros s m i Hs Hi.
  pose proof (len_R_pos s Hs) as Hn.
  assert (Hd : 1 <= IZR (Z.max (m - 1) 1)) by (apply IZR_le; lia).
  assert (Hid : INR i <= IZR (Z.max (m - 1) 1))
    by (rewrite INR_IZR_INZ; apply IZR_le; lia).
  pose proof (pos_INR i) as Hi0.
  set (d := IZR (Z.max (m - 1) 1)) in *.
  split.
  - apply Rmult_le_pos; [lra|]. unfold Rdiv; apply Rmult_le_pos; [lra|]. left; apply Rinv_0_lt_compat; lra.
  - replace (INR i * ((len_R s - 1) / d)) with ((len_R s - 1) * (INR i / d)) by (field; lra).
    rewrite <- (Rmult_1_r (len_R s - 1)) at 2.
    apply Rmult_le_compat_l; [lra|].
    apply (Rmult_le_reg_r d); [lra|]. unfold Rdiv; rewrite Rmult_assoc, Rinv_l by lra; lra.
Qed.

Lemma resample_value_ok : forall (s : list R) (m : Z) (i : nat),
  s <> [] -> (Z.of_nat i < m)%Z ->
  let n := Z.of_nat (length s) in
  let pos := INR i * ((len_R s - 1) / IZR (Z.max (m - 1) 1)) in
  let l := py_floor pos in
  let frac := pos - IZR l in
  resample_value s ((len_R s - 1) / IZR (Z.max (m - 1) 1)) i =
    Ok ((1 - frac) * nth (Z.to_nat l) s 0 + frac * nth (Z.to_nat (Z.min (l + 1) (n - 1))) s 0)
  /\ (0 <= l < n)%Z /\ 0 <= frac < 1 /\ ((l = n - 1)%Z -> frac = 0).
Proof.
  intros s m i Hs Hi n pos l frac.
  pose proof (resample_pos_bounds s m i Hs Hi) as Hp; fold pos in Hp.
  pose proof (py_floor_spec pos) as Hf; fold l in Hf.
  assert (Hlen : len_R s = IZR n) by (unfold len_R, n; apply INR_IZR_INZ).
  assert (Hl : (0 <= l < n)%Z).
  { split.
    - apply Z.lt_succ_r; apply lt_IZR; rewrite succ_IZR; lra.
    - apply lt_IZR; lra. }
  assert (Hn1 : (1 <= n)%Z) by lia.
  repeat split; try lia; unfold frac; try lra.
  - unfold resample_value; fold pos l.
    rewrite (py_index_ok s l 0) by exact Hl; simpl.
    rewrite (py_index_ok s (Z.min (l + 1) (Z.of_nat (length s) - 1)) 0) by lia; simpl.
    reflexivity.
  - intro E. assert (IZR l = len_R s - 1) by (rewrite Hlen, E, minus_IZR; reflexivity).
    lra.
Qed.

Lemma py_round_max_pos : forall x, (1 <= Z.max 1 (py_round x))%Z.
Proof. intro; lia. Qed.

(** The samples [_resample] produces, written as a [map] over the output
    indices. *)
Definition resample_closed_form (s : list R) (o t : Z) : list R :=
  let m := Z.max 1 (py_round (len_R s / IZR o * IZR t)) in
  let step := (len_R s - 1) / IZR (Z.max (m - 1) 1) in
  map (fun i : nat =>
         let pos := INR i * step in
         let l := py_floor pos in
         let frac := pos - IZR l in
         (1 - frac) * nth (Z.to_nat l) s 0
         + frac * nth (Z.to_nat (Z.min (l + 1) (Z.of_nat (length s) - 1))) s 0)
      (seq 0 (Z.to_nat m)).

Lemma resample_eq : forall (s : list R) (o t : Z),
  s <> [] -> o <> t -> o <> 0%Z -> resample s o t = Ok (resample_closed_form s o t).
Proof.
  intros s o t Hs Hot Ho; unfold resample, resample_closed_form.
  replace ((o =? t)%Z || match s with [] => true | _ => false end) with false
    by (destruct s; [congruence|]; symmetry; apply orb_false_iff; split;
        [apply Z.eqb_neq; exact Hot | reflexivity]).
  rewrite py_div_ok by (apply not_0_IZR; exact Ho); simpl.
  set (m := Z.max 1 (py_round (len_R s / IZR o * IZR t))).
  assert (Hm : (1 <= m)%Z) by apply py_round_max_pos.
  rewrite py_div_ok by (apply not_0_IZR; lia); simpl.
  apply map_result_ok; intros i Hi; apply in_seq in Hi.
  destruct (resample_value_ok s m i Hs ltac:(lia)) as [E _].
  exact E.
Qed.

Lemma resample_closed_form_length : forall s o t,
  Z.of_nat (length (resample_closed_form s o t)) =
  Z.max 1 (py_round (len_R s / IZR o * IZR t)).
Proof.
  intros; unfold resample_closed_form; rewrite length_map, length_seq.
  pose proof (py_round_max_pos (len_R s / IZR o * IZR t)); lia.
Qed.


(** ** Feature vector: length and totality of [extract] *)

Lemma len_R_neq_0 : forall {A : Type} (s : list A), s <> [] -> len_R s <> 0.
Proof. intros A s Hs; pose proof (len_R_pos s Hs); lra. Qed.

Lemma zero_crossing_rate_ok : forall s, exists z, zero_crossing_rate s = Ok z.
Proof.
  intros [|x0 [|x1 rest]]; try (eexists; reflexivity).
  unfold zero_crossing_rate; rewrite py_div_ok by apply len_R_minus_1_neq.
  eexists; reflexivity.
Qed.

(** The only exception [_average_power] can raise on a non-empty signal is
    the division of the angular frequency by a zero sample rate. *)
Lemma average_power_err : forall s f sr e,
  s <> [] -> average_power s f sr = Err e -> e = ZeroDivisionError /\ 0 < f /\ sr = 0%Z.
Proof.
  intros s f sr e Hs H; unfold average_power in H.
  destruct (Rle_dec f 0) as [Hf|Hf]; [discriminate|].
  unfold py_div at 1 in H.
  destruct (Req_EM_T (IZR sr) 0) as [E|E].
  - simpl in H; inversion H; repeat split; [lra | apply eq_IZR; exact E].
  - simpl in H; rewrite py_div_ok in H by (apply len_R_neq_0; exact Hs); discriminate.
Qed.

Lemma map_result_err : forall {A B : Type} (f : A -> result B) l e,
  map_result f l = Err e -> exists x, In x l /\ f x = Err e.
Proof.
  intros A B f l e; induction l as [|x l IH]; simpl; [discriminate|].
  destruct (f x) as [y|e'] eqn:Hx; simpl.
  - destruct (map_result f l) as [ys|e''] eqn:Hl; simpl; [discriminate|].
    intro E; inversion E; subst.
    destruct (IH eq_refl) as [z [Hz Hfz]]; exists z; split; [right|]; assumption.
  - intro E; inversion E; subst; exists x; split; [left|]; auto.
Qed.

Lemma map_result_length : forall {A B : Type} (f : A -> result B) l ys,
  map_result f l = Ok ys -> length ys = length l.
Proof.
  intros A B f l; induction l as [|x l IH]; intros ys H; simpl in H.
  - inversion H; reflexivity.
  - destruct (f x); simpl in H; [|discriminate].
    destruct (map_result f l) eqn:Hl; simpl in H; [|discriminate].
    inversion H; subst; simpl; f_equal; apply IH; reflexivity.
Qed.

(** The signal [extract] analyses is empty exactly when its input is. *)
Lemma prepared_signal_cases : forall cfg s sr,
  (sr <> sample_rate cfg /\ sr = 0%Z /\ s <> [] /\
     prepared_signal cfg s sr = Err ZeroDivisionError) \/
  (exists s', prepared_signal cfg s sr = Ok s' /\ (s' = [] <-> s = [])).
Proof.
  intros cfg s sr; unfold prepared_signal.
  destruct (sr =? sample_rate cfg)%Z eqn:Heq; simpl.
  - right; exists s; split; [reflexivity | tauto].
  - pose proof Heq as Heqb; apply Z.eqb_neq in Heq.
    destruct s as [|x s]; [right; exists []; split; [|tauto]|].
    + unfold resample; rewrite orb_true_r; reflexivity.
    + destruct (Z.eq_dec sr 0) as [E|E].
      * left; repeat split; try assumption; [discriminate|].
        unfold resample; rewrite Heqb; simpl; subst sr; unfold py_div.
        destruct (Req_EM_T (IZR 0) 0) as [_|N]; [reflexivity | exfalso; apply N; reflexivity].
      * right; exists (resample_closed_form (x :: s) sr (sample_rate cfg)).
        split; [apply resample_eq; [discriminate | exact Heq | exact E]|].
        split; intro H; [|discriminate].
        pose proof (resample_closed_form_length (x :: s) sr (sample_rate cfg)) as L.
        rewrite H in L; simpl in L; lia.
Qed.

(** [extract] on an analysed signal [s'] that is non-empty. *)
Lemma extract_nonempty : forall cfg s sr s',
  prepared_signal cfg s sr = Ok s' -> s' <> [] ->
  (forall f, In f (probe_frequencies cfg) -> exists p, average_power s' f (sample_rate cfg) = Ok p) ->
  exists v, extract cfg s sr = Ok v /\ length v = (4 + length (probe_frequencies cfg))%nat.
Proof.
  intros cfg s sr s' Hp Hne Hpow; unfold extract; rewrite Hp; cbn [bind].
  destruct s' as [|x rest]; [congruence|].
  do 3 (rewrite py_div_ok by (apply len_R_neq_0; exact Hne); cbn [bind]).
  destruct (zero_crossing_rate_ok (x :: rest)) as [z Hz]; rewrite Hz; cbn [bind].
  destruct (map_result (fun freq => average_power (x :: rest) freq (sample_rate cfg))
                       (probe_frequencies cfg)) as [ps|e] eqn:Hm; cbn [bind].
  - eexists; split; [reflexivity|]; simpl; f_equal; f_equal; f_equal; f_equal.
    exact (map_result_length _ _ _ Hm).
  - destruct (map_result_err _ _ _ Hm) as [f [Hin Hf]].
    destruct (Hpow f Hin) as [p Hp']; congruence.
Qed.

(** On a non-empty analysed signal, every exception of [extract] is one of
    its power probes. *)
Lemma extract_nonempty_err : forall cfg s sr s' e,
  prepared_signal cfg s sr = Ok s' -> s' <> [] -> extract cfg s sr = Err e ->
  map_result (fun freq => average_power s' freq (sample_rate cfg)) (probe_frequencies cfg)
  = Err e.
Proof.
  intros cfg s sr s' e Hp Hne H; unfold extract in H; rewrite Hp in H; cbn [bind] in H.
  destruct s' as [|x rest]; [congruence|].
  do 3 (rewrite py_div_ok in H by (apply len_R_neq_0; exact Hne); cbn [bind] in H).
  destruct (zero_crossing_rate_ok (x :: rest)) as [z Hz]; rewrite Hz in H; cbn [bind] in H.
  destruct (map_result _ _); cbn [bind] in H; congruence.
Qed.

(** C4: for sample rates that are not zero, [extract] returns a vector of
    length [4 + k] ([k] probe frequencies), all zeros when the analysed
    (possibly resampled) signal is empty. *)
Theorem extract_fixed_length : forall cfg s sr,
  sr <> 0%Z -> sample_rate cfg <> 0%Z ->
  exists v, extract cfg s sr = Ok v /\
    length v = (4 + length (probe_frequencies cfg))%nat /\
    (prepared_signal cfg s sr = Ok [] -> v = repeat 0 (4 + length (probe_frequencies cfg))).
Proof.
  intros cfg s sr Hsr Hcfg.
  destruct (prepared_signal_cases cfg s sr) as [[_ [E _]] | [s' [Hp Hiff]]];
    [contradiction|].
  destruct s' as [|x rest].
  - exists (repeat 0 (length (probe_frequencies cfg) + 4)).
    unfold extract; rewrite Hp; cbn [bind].
    rewrite repeat_length, (Nat.add_comm _ 4).
    repeat split; reflexivity.
  - destruct (extract_nonempty cfg s sr (x :: rest) Hp ltac:(discriminate)) as [v [Hv Hl]].
    + intros f _.
      destruct (average_power (x :: rest) f (sample_rate cfg)) as [p|e] eqn:Ha;
        [exists p; reflexivity|].
      destruct (average_power_err (x :: rest) f _ _ ltac:(discriminate) Ha) as [_ [_ Z0]]; contradiction.
    + exists v; repeat split; [exact Hv | exact Hl | intro H; rewrite Hp in H; discriminate].
Qed.

(** C10: [extract] never divides by [len(signal)] or [len(signal) - 1] with
    a zero divisor: every exception it raises is a [ZeroDivisionError] by a
    zero sample rate, either the input rate when resampling a non-empty
    signal or the configured rate in a probe with positive frequency. *)
Theorem extract_division_safety : forall cfg s sr e,
  extract cfg s sr = Err e ->
  e = ZeroDivisionError /\
  ((sr <> sample_rate cfg /\ sr = 0%Z /\ s <> []) \/
   (sample_rate cfg = 0%Z /\ exists f, In f (probe_frequencies cfg) /\ 0 < f)).
Proof.
  intros cfg s sr e H.
  destruct (prepared_signal_cases cfg s sr) as [[Hne [E [Hs Hp]]] | [s' [Hp Hiff]]].
  - unfold extract in H; rewrite Hp in H; cbn [bind] in H; inversion H.
    split; [reflexivity | left; auto].
  - destruct s' as [|x rest].
    + unfold extract in H; rewrite Hp in H; cbn [bind] in H; discriminate.
    + pose proof (extract_nonempty_err cfg s sr (x :: rest) e Hp ltac:(discriminate) H) as Hm.
      destruct (map_result_err _ _ _ Hm) as [f [Hin Hf]].
      destruct (average_power_err (x :: rest) f _ _ ltac:(discriminate) Hf) as [He [Hf0 Hz]].
      split; [exact He | right; split; [exact Hz | exists f; split; assumption]].
Qed.

(** ** WAV round trip *)

Lemma py_int_bounds : forall y,
  Rabs (IZR (py_int y) - y) < 1 /\ Rabs (IZR (py_int y)) <= Rabs y.
Proof.
  intro y; unfold py_int; destruct (Rle_dec 0 y) as [Hy|Hy].
  - destruct (base_Int_part y) as [H1 H2].
    assert (H0 : (0 <= Int_part y)%Z)
      by (apply Z.lt_succ_r; apply lt_IZR; rewrite succ_IZR; simpl; lra).
    apply IZR_le in H0.
    rewrite (Rabs_right y), (Rabs_right (IZR (Int_part y))) by lra.
    split; [apply Rabs_def1|]; lra.
  - destruct (base_Int_part (- y)) as [H1 H2].
    assert (H0 : (0 <= Int_part (- y))%Z)
      by (apply Z.lt_succ_r; apply lt_IZR; rewrite succ_IZR; simpl; lra).
    apply IZR_le in H0.
    rewrite opp_IZR, (Rabs_left y) by lra.
    rewrite Rabs_Ropp, (Rabs_right (IZR (Int_part (- y)))) by lra.
    split; [apply Rabs_def1|]; lra.
Qed.

Lemma int16_bytes_roundtrip : forall v,
  (-32768 <= v <= 32767)%Z -> item_of_bytes true 2 (item_to_bytes 2 v) = v.
Proof.
  intros v Hv; unfold item_of_bytes, item_to_bytes.
  change (2 ^ (8 * Z.of_nat 2))%Z with 65536%Z.
  change (2 ^ (8 * Z.of_nat 2 - 1))%Z with 32768%Z.
  cbn [le_bytes le_value andb].
  set (u := (v mod 65536)%Z).
  assert (Hu : (u = v /\ 0 <= v \/ u = v + 65536 /\ v < 0)%Z)
    by (unfold u; Z.div_mod_to_equations; lia).
  assert (Hval : (u mod 256 + 256 * ((u / 256) mod 256 + 256 * 0) = u)%Z)
    by (Z.div_mod_to_equations; lia).
  rewrite Hval.
  destruct (32768 <=? u)%Z eqn:E; [apply Z.leb_le in E | apply Z.leb_gt in E]; lia.
Qed.

Lemma item_to_bytes_length : forall v, length (item_to_bytes 2 v) = 2%nat.
Proof. reflexivity. Qed.

Lemma chunks_int16 : forall ints fuel,
  (length ints <= fuel)%nat ->
  chunks fuel 2 (array_tobytes 2 ints) = map (item_to_bytes 2) ints.
Proof.
  induction ints as [|v ints IH]; intros fuel Hf; unfold array_tobytes in *; simpl.
  - destruct fuel; reflexivity.
  - destruct fuel as [|fuel]; [simpl in Hf; lia|].
    unfold item_to_bytes at 1 2; simpl le_bytes; simpl.
    f_equal; apply IH; simpl in Hf; lia.
Qed.

Lemma array_tobytes_length : forall ints, length (array_tobytes 2 ints) = (2 * length ints)%nat.
Proof.
  induction ints as [|v ints IH]; [reflexivity|]; unfold array_tobytes in *; simpl.
  rewrite IH; lia.
Qed.

Lemma array_frombytes_int16 : forall ints,
  Forall (fun v => (-32768 <= v <= 32767)%Z) ints ->
  array_frombytes true 2 (array_tobytes 2 ints) = Ok ints.
Proof.
  intros ints Hrange; unfold array_frombytes.
  rewrite array_tobytes_length.
  replace (Nat.eqb ((2 * length ints) mod 2) 0) with true
    by (symmetry; apply Nat.eqb_eq; rewrite Nat.mul_comm; apply Nat.Div0.mod_mul).
  rewrite <- array_tobytes_length, chunks_int16 by (rewrite array_tobytes_length; lia).
  f_equal; rewrite map_map.
  induction ints as [|v ints IH]; [reflexivity|].
  inversion Hrange; subst; simpl; rewrite int16_bytes_roundtrip by assumption.
  f_equal; apply IH; assumption.
Qed.

Lemma decoded_frames_saved : forall ints rate,
  Forall (fun v => (-32768 <= v <= 32767)%Z) ints ->
  decoded_frames (mk_wav 1 2 rate (Z.of_nat (length (array_tobytes 2 ints)) / 2)
                         (array_tobytes 2 ints)) = Ok ints.
Proof.
  intros ints rate Hrange; unfold decoded_frames; cbn [sampwidth nchannels nframes wav_data].
  change (supported_typecode 2) with (Some true); cbn match.
  replace (Z.to_nat (Z.of_nat (length (array_tobytes 2 ints)) / 2 * (1 * 2))%Z)
    with (length (array_tobytes 2 ints))
    by (rewrite array_tobytes_length; Z.div_mod_to_equations; lia).
  rewrite firstn_all; change (Z.to_nat 2) with 2%nat.
  rewrite array_frombytes_int16 by exact Hrange; reflexivity.
Qed.

Lemma py_int_clip_range : forall x,
  (-32768 <= py_int (Rmin 1 (Rmax (-1) x) * 32767) <= 32767)%Z.
Proof.
  intro x; set (c := Rmin 1 (Rmax (-1) x)).
  assert (Hc : -1 <= c <= 1).
  { unfold c, Rmin, Rmax; destruct (Rle_dec (-1) x); destruct (Rle_dec 1 _); lra. }
  destruct (py_int_bounds (c * 32767)) as [_ Hb].
  revert Hb; unfold Rabs; destruct (Rcase_abs (IZR _)), (Rcase_abs (c * 32767));
    intro Hb; split; apply le_IZR; lra.
Qed.

(** Saving then loading: the recovered sample is [int(clip(x) * 32767) / 32768]. *)
Lemma save_load : forall fs p signal rate,
  (0 < rate < 2 ^ 31)%Z -> (36 + 2 * Z.of_nat (length signal) < 2 ^ 32)%Z ->
  exists fs', save_wav_mono fs p signal rate = Ok fs' /\
    load_wav_mono fs' p =
      Ok (map (fun x => IZR (py_int (Rmin 1 (Rmax (-1) x) * 32767)) / 32768) signal, rate).
Proof.
  intros fs p signal rate Hr Hn; unfold save_wav_mono; cbv zeta.
  replace (rate <=? 0)%Z with false by (symmetry; apply Z.leb_gt; lia).
  set (ints := map (fun value => py_int (value * 32767))
                   (map (fun value => Rmin 1 (Rmax (-1) value)) signal)).
  assert (Hlen : length (array_tobytes 2 ints) = (2 * length signal)%nat)
    by (rewrite array_tobytes_length; unfold ints; rewrite !length_map; reflexivity).
  replace (header_fits 1 2 rate (Z.of_nat (length (array_tobytes 2 ints)) / 2 * 2)) with true.
  2:{ symmetry; unfold header_fits; rewrite Hlen, Nat2Z.inj_mul.
      replace (Z.of_nat 2 * Z.of_nat (length signal) / 2 * 2)%Z
        with (2 * Z.of_nat (length signal))%Z by (Z.div_mod_to_equations; lia).
      apply andb_true_intro; split; [apply andb_true_intro; split|]; apply Z.ltb_lt; lia. }
  eexists; split; [reflexivity|].
  assert (Hrange : Forall (fun v => (-32768 <= v <= 32767)%Z) ints).
  { unfold ints; rewrite map_map; apply Forall_forall; intros v Hv.
    apply in_map_iff in Hv; destruct Hv as [x [<- _]]; apply py_int_clip_range. }
  unfold load_wav_mono, fs_update; rewrite String.eqb_refl.
  cbn [nchannels sampwidth framerate Z.leb orb].
  rewrite decoded_frames_saved by exact Hrange; cbn [bind].
  unfold ints; rewrite !map_map; reflexivity.
Qed.


Lemma Int_part_eq : forall r k, IZR k <= r < IZR k + 1 -> Int_part r = k.
Proof.
  intros r k Hk; destruct (base_Int_part r) as [H1 H2].
  assert (A : (Int_part r < k + 1)%Z) by (apply lt_IZR; rewrite plus_IZR; simpl; lra).
  assert (B : (k - 1 < Int_part r)%Z) by (apply lt_IZR; rewrite minus_IZR; simpl; lra).
  lia.
Qed.




(** ** Nearest-neighbour prediction *)

Lemma dot_lower_bound : forall a b,
  - (sumsq a + sumsq b) <= 2 * cosine_similarity a b.
Proof.
  induction a as [|x a IH]; intros b.
  - unfold cosine_similarity; simpl; pose proof (sum_R_nonneg_sq b); unfold sumsq in *; simpl; lra.
  - destruct b as [|y b].
    + unfold cosine_similarity; simpl.
      pose proof (sum_R_nonneg_sq (x :: a)); unfold sumsq in *; simpl in *; lra.
    + specialize (IH b); unfold cosine_similarity, sumsq in *; simpl in *.
      set (A := sum_R (map (fun value : R => value * value) a)) in *.
      set (B := sum_R (map (fun value : R => value * value) b)) in *.
      set (C := sum_R (map (fun '(x, y) => x * y) (combine a b))) in *.
      pose proof (Rle_0_sqr (x + y)); unfold Rsqr in *; lra.
Qed.

Lemma dot_zero_l : forall a b, Forall (fun x => x = 0) a -> cosine_similarity a b = 0.
Proof.
  intros a b H; revert b; induction H as [|x a Hx Ha IH]; intros b;
    [reflexivity|].
  destruct b as [|y b]; [reflexivity|].
  unfold cosine_similarity in *; simpl; rewrite IH, Hx; ring.
Qed.

Lemma dot_zero_r : forall a b, Forall (fun x => x = 0) b -> cosine_similarity a b = 0.
Proof.
  intros a b H; revert a; induction H as [|y b Hy Hb IH]; intros a;
    [unfold cosine_similarity; rewrite combine_nil; reflexivity|].
  destruct a as [|x a]; [reflexivity|].
  unfold cosine_similarity in *; simpl; rewrite IH, Hy; ring.
Qed.

Lemma unit_sumsq : forall e, sqrt (sumsq e) = 1 -> sumsq e = 1.
Proof.
  intros e H; rewrite <- (sqrt_sqrt (sumsq e)) by apply sum_R_nonneg_sq; rewrite H; ring.
Qed.

(** Under the reference-set invariant every similarity is at least [-1]. *)
Lemma similarity_ge_minus_1 : forall a b,
  unit_or_zero a -> unit_or_zero b -> -1 <= cosine_similarity a b.
Proof.
  intros a b [Za|Ua] [Zb|Ub].
  - rewrite dot_zero_l by exact Za; lra.
  - rewrite dot_zero_l by exact Za; lra.
  - rewrite dot_zero_r by exact Zb; lra.
  - pose proof (dot_lower_bound a b); apply unit_sumsq in Ua, Ub; lra.
Qed.

Lemma enumerate_from_app : forall {A : Type} (l : list A) x k,
  enumerate_from k (l ++ [x]) = enumerate_from k l ++ [(k + length l, x)%nat].
Proof.
  induction l as [|y l IH]; intros x k; simpl; [rewrite Nat.add_0_r; reflexivity|].
  rewrite IH, Nat.add_succ_r; reflexivity.
Qed.

(** The scan keeps the first index of maximal similarity. *)
Lemma scan_first_argmax : forall refs q,
  refs <> [] -> (forall r, In r refs -> -1 <= cosine_similarity r q) ->
  let sim := fun j => cosine_similarity (nth j refs []) q in
  exists k, (k < length refs)%nat /\ scan refs q = (Z.of_nat k, sim k) /\
    (forall j, (j < length refs)%nat -> sim j <= sim k) /\
    (forall j, (j < k)%nat -> sim j < sim k).
Proof.
  intros refs q; induction refs as [|x l IH] using rev_ind; intros Hne Hge sim;
    [congruence|].
  unfold scan in *; rewrite enumerate_from_app, fold_left_app; simpl.
  rewrite length_app; simpl.
  assert (Hx : sim (length l) = cosine_similarity x q)
    by (unfold sim; rewrite nth_middle; reflexivity).
  assert (Hsl : forall j, (j < length l)%nat -> sim j = cosine_similarity (nth j l []) q)
    by (intros j Hj; unfold sim; rewrite app_nth1 by exact Hj; reflexivity).
  destruct l as [|y l'] eqn:El.
  - simpl; unfold scan_step; simpl.
    assert (Hx0 : -1 <= cosine_similarity x q) by (apply Hge; left; reflexivity).
    exists 0%nat; split; [lia|].
    split; [|split; intros j Hj; [assert (j = 0%nat) by lia; subst; lra | lia]].
    unfold sim; simpl.
    destruct (Rlt_dec (-1) (cosine_similarity x q)); [reflexivity|].
    f_equal; lra.
  - rewrite <- El in *.
    destruct IH as [k [Hk [Hscan [Hmax Hfirst]]]].
    + rewrite El; discriminate.
    + intros r Hr; apply Hge, in_or_app; left; exact Hr.
    + rewrite Hscan; unfold scan_step; simpl.
      destruct (Rlt_dec (cosine_similarity (nth k l []) q) (cosine_similarity x q)) as [Lt|Ge].
      * exists (length l); split; [lia|]; rewrite Hx; split; [reflexivity|].
        split; intros j Hj.
        -- destruct (Nat.eq_dec j (length l)) as [->|Nj]; [rewrite Hx; lra|].
           rewrite Hsl by lia. specialize (Hmax j ltac:(lia)); lra.
        -- rewrite Hsl by lia. specialize (Hmax j ltac:(lia)); lra.
      * exists k; split; [lia|]; rewrite Hsl by exact Hk; split; [reflexivity|].
        split; intros j Hj.
        -- destruct (Nat.eq_dec j (length l)) as [->|Nj]; [rewrite Hx; lra|].
           rewrite Hsl by lia. exact (Hmax j ltac:(lia)).
        -- rewrite Hsl by lia. exact (Hfirst j Hj).
Qed.

(** C1: on a recognizer satisfying the reference-set invariant,
    [predict_sample] raises the not-fitted [RuntimeError] when the
    reference set is empty; otherwise, for a query that decodes and whose
    features extract, it scans every reference, picks the reference [k]
    with the highest similarity (dot product of the stored normalised
    embedding with the normalised query), the first one on ties, and
    returns transcript [k] with [distance = 1 - similarity k], leaving the
    recognizer unchanged. *)
Theorem predict_sample_spec : forall fs st sample,
  ref_inv st ->
  (embeddings st = [] ->
     predict_sample fs sample st =
       (Err (RuntimeError "Recognizer must be fitted before calling predict_sample"), st)) /\
  (forall signal sr feats,
     embeddings st <> [] ->
     load_wav_mono fs (path sample) = Ok (signal, sr) ->
     extract (feature_extractor st) signal sr = Ok feats ->
     let sim := fun j => cosine_similarity (nth j (embeddings st) []) (normalize feats) in
     exists k, (k < length (embeddings st))%nat /\
       (forall j, (j < length (embeddings st))%nat -> sim j <= sim k) /\
       (forall j, (j < k)%nat -> sim j < sim k) /\
       predict_sample fs sample st =
         (Ok (mk_recognition_result sample (nth k (transcripts st) ""%string) (1 - sim k)), st)).
Proof.
  intros fs st sample [Hlen Hunit]; split.
  - intro E; unfold predict_sample, mbind, get, is_fitted; rewrite E; reflexivity.
  - intros signal sr feats Hne Hload Hext sim.
    destruct (scan_first_argmax (embeddings st) (normalize feats) Hne) as
      [k [Hk [Hscan [Hmax Hfirst]]]].
    { intros r Hr; apply similarity_ge_minus_1;
        [exact (proj1 (Forall_forall _ _) Hunit r Hr) | apply normalize_unit_or_zero]. }
    exists k; split; [exact Hk|]; split; [exact Hmax|]; split; [exact Hfirst|].
    unfold predict_sample, mbind, get, lift, is_fitted.
    destruct (embeddings st) as [|e es] eqn:Ee; [congruence|]; cbn [negb].
    rewrite Hload, Hext.
    rewrite <- Ee in Hscan |- *; rewrite Hscan.
    rewrite (py_index_ok (transcripts st) (Z.of_nat k) ""%string) by lia.
    rewrite Nat2Z.id; unfold ret, sim; rewrite Ee; reflexivity.
Qed.

(* ------------------------------------------------------------------ *)
(** * Concrete instances *)

(** A file store with one empty 16-bit mono recording at 16 kHz. *)
Definition fs0 : filesystem :=
  fun p => if String.eqb p "probe.wav" then Some (mk_wav 1 2 16000 0 []) else None.

Definition sample0 : audio_sample := mk_sample "probe.wav" "calm" None.
Definition missing_sample : audio_sample := mk_sample "missing.wav" "calm" None.

(** A fitted recognizer with a single unit embedding. *)
Definition st_fitted : rec_state := mk_rec_state default_extractor [[1]] ["calm"%string].

Lemma st_fitted_inv : ref_inv st_fitted.
Proof.
  split; [reflexivity|].
  constructor; [|constructor].
  right; unfold sumsq; simpl; replace (1 * 1 + 0) with 1 by ring; apply sqrt_1.
Qed.

(** An extractor without spectral probes: the feature vector is
    [[mean_abs; std; variance; zero_crossings]]. *)
Definition plain_extractor : extractor := mk_extractor 16000 0.025 0.010 [].

(** A 16-bit mono file at 16 kHz holding the frames [16384] and [-16384]
    (little-endian bytes [00 40] and [00 C0]). *)
Definition fs_pm : filesystem :=
  fun p => if String.eqb p "pm.wav"
           then Some (mk_wav 1 2 16000 2 [0%Z; 64%Z; 0%Z; 192%Z]) else None.

Definition sample_pm (label : string) : audio_sample := mk_sample "pm.wav" label None.

(** A 16-bit mono file at 16 kHz holding the frames [16384] and [8192]
    (bytes [00 40] and [00 20]): the signal [[0.5, 0.25]]. *)
Definition fs_hq : filesystem :=
  fun p => if String.eqb p "hq.wav"
           then Some (mk_wav 1 2 16000 2 [0%Z; 64%Z; 0%Z; 32%Z]) else None.

Definition sample_hq : audio_sample := mk_sample "hq.wav" "b" None.

(** Three stored references; the last two are equal. *)
Definition st_three : rec_state :=
  mk_rec_state plain_extractor [[1; 0; 0; 0]; [0; 0; 0; 1]; [0; 0; 0; 1]]
               ["a"%string; "b"%string; "c"%string].

(** The recognizer [fit] builds from the single sample [pm.wav]. *)
Definition st_pm : rec_state :=
  mk_rec_state plain_extractor [[2 / 5; 2 / 5; 1 / 5; 4 / 5]] ["b"%string].

Lemma load_pm : load_wav_mono fs_pm "pm.wav" = Ok ([1 / 2; - 1 / 2], 16000%Z).
Proof.
  transitivity (Ok (map (scale_sample 2) [16384%Z; (-16384)%Z], 16000%Z)); [reflexivity|].
  unfold scale_sample; cbn [map Z.eqb Pos.eqb].
  replace (2 ^ (8 * 2 - 1))%Z with 32768%Z by reflexivity.
  do 3 f_equal; [|f_equal]; field.
Qed.

Lemma extract_pm : extract plain_extractor [1 / 2; - 1 / 2] 16000 = Ok [1 / 2; 1 / 2; 1 / 4; 1].
Proof.
  unfold extract, prepared_signal; cbn [sample_rate plain_extractor Z.eqb Pos.eqb negb].
  cbn [bind].
  assert (Hn : len_R [1 / 2; - 1 / 2] = 2) by (unfold len_R; simpl; ring).
  rewrite Hn, py_div_ok by lra; cbn [bind].
  replace (sum_R [1 / 2; - 1 / 2] / 2) with 0 by (simpl; field).
  rewrite py_div_ok by lra; cbn [bind].
  replace (sum_R (map (fun x => (x - 0) ^ 2) [1 / 2; - 1 / 2]) / 2) with (1 / 4)
    by (simpl; field).
  rewrite py_div_ok by lra; cbn [bind].
  replace (sum_R (map Rabs [1 / 2; - 1 / 2]) / 2) with (1 / 2)
    by (simpl; rewrite Rabs_right, Rabs_left by lra; field).
  assert (Hz : zero_crossing_rate [1 / 2; - 1 / 2] = Ok 1).
  { unfold zero_crossing_rate; cbn [count_crossings].
    unfold is_crossing.
    destruct (Rle_dec 0 (1 / 2)) as [_|N]; [|lra].
    destruct (Rlt_dec (- 1 / 2) 0) as [_|N]; [|lra].
    rewrite Hn, py_div_ok by lra; f_equal; simpl; field. }
  rewrite Hz; cbn [bind map_result probe_frequencies plain_extractor app].
  replace (sqrt (1 / 4)) with (1 / 2); [reflexivity|].
  replace (1 / 4) with ((1 / 2) * (1 / 2)) by field.
  symmetry; apply sqrt_square; lra.
Qed.

Lemma normalize_pm : normalize [1 / 2; 1 / 2; 1 / 4; 1] = [2 / 5; 2 / 5; 1 / 5; 4 / 5].
Proof.
  unfold normalize.
  assert (Hn : sqrt (sumsq [1 / 2; 1 / 2; 1 / 4; 1]) = 5 / 4).
  { unfold sumsq; simpl.
    replace (1 / 2 * (1 / 2) + (1 / 2 * (1 / 2) + (1 / 4 * (1 / 4) + (1 * 1 + 0))))
      with ((5 / 4) * (5 / 4)) by field.
    apply sqrt_square; lra. }
  rewrite Hn; destruct (Req_EM_T (5 / 4) 0) as [E|_]; [lra|].
  cbn [map]; repeat (apply f_equal2; [field|]); reflexivity.
Qed.

Lemma unit_pm : sqrt (sumsq [2 / 5; 2 / 5; 1 / 5; 4 / 5]) = 1.
Proof.
  unfold sumsq; simpl.
  replace (2 / 5 * (2 / 5) + (2 / 5 * (2 / 5) + (1 / 5 * (1 / 5) + (4 / 5 * (4 / 5) + 0))))
    with 1 by field.
  apply sqrt_1.
Qed.

Lemma st_three_inv : ref_inv st_three.
Proof.
  split; [reflexivity|].
  repeat apply Forall_cons; try apply Forall_nil;
    right; unfold sumsq; simpl;
    match goal with |- sqrt ?x = 1 => replace x with 1 by ring end; apply sqrt_1.
Qed.

(** The scan over [st_three]: similarities [2/5], [4/5], [4/5]; the
    second reference wins, the third only ties it. *)
Lemma scan_three :
  scan (embeddings st_three) [2 / 5; 2 / 5; 1 / 5; 4 / 5] = (1%Z, 4 / 5).
Proof.
  set (q := [2 / 5; 2 / 5; 1 / 5; 4 / 5]).
  assert (S0 : scan_step q (0%Z, -1) (0%nat, [1; 0; 0; 0]) = (0%Z, 2 / 5)).
  { unfold scan_step, cosine_similarity, q; cbn [combine map sum_R snd].
    destruct (Rlt_dec _ _) as [_|N]; [f_equal; ring | lra]. }
  assert (S1 : scan_step q (0%Z, 2 / 5) (1%nat, [0; 0; 0; 1]) = (1%Z, 4 / 5)).
  { unfold scan_step, cosine_similarity, q; cbn [combine map sum_R snd].
    destruct (Rlt_dec _ _) as [_|N]; [f_equal; ring | lra]. }
  assert (S2 : scan_step q (1%Z, 4 / 5) (2%nat, [0; 0; 0; 1]) = (1%Z, 4 / 5)).
  { unfold scan_step, cosine_similarity, q; cbn [combine map sum_R snd].
    destruct (Rlt_dec _ _) as [L|_]; [lra | reflexivity]. }
  unfold scan; cbn [embeddings st_three enumerate_from fold_left].
  rewrite S0, S1, S2; reflexivity.
Qed.

Lemma scan_pm :
  scan (embeddings st_pm) [2 / 5; 2 / 5; 1 / 5; 4 / 5] = (0%Z, 1).
Proof.
  unfold scan, scan_step, cosine_similarity; cbn [embeddings st_pm enumerate_from fold_left].
  cbn [combine map sum_R snd].
  destruct (Rlt_dec _ _) as [_|N]; [f_equal; field | lra].
Qed.

Lemma predict_three : forall label,
  predict_sample fs_pm (sample_pm label) st_three =
    (Ok (mk_recognition_result (sample_pm label) "b" (1 - 4 / 5)), st_three).
Proof.
  intro label; unfold predict_sample, mbind, get, lift, ret.
  change (is_fitted st_three) with true; cbn [negb].
  change (path (sample_pm label)) with "pm.wav"%string; rewrite load_pm.
  change (feature_extractor st_three) with plain_extractor; rewrite extract_pm.
  rewrite normalize_pm, scan_three; reflexivity.
Qed.

Lemma predict_pm : forall label,
  predict_sample fs_pm (sample_pm label) st_pm =
    (Ok (mk_recognition_result (sample_pm label) "b" (1 - 1)), st_pm).
Proof.
  intro label; unfold predict_sample, mbind, get, lift, ret.
  change (is_fitted st_pm) with true; cbn [negb].
  change (path (sample_pm label)) with "pm.wav"%string; rewrite load_pm.
  change (feature_extractor st_pm) with plain_extractor; rewrite extract_pm.
  rewrite normalize_pm, scan_pm; reflexivity.
Qed.

Lemma transcribe_three :
  transcribe fs_pm [sample_pm "b"; sample_pm "c"] st_three =
    (Ok [mk_recognition_result (sample_pm "b") "b" (1 - 4 / 5);
         mk_recognition_result (sample_pm "c") "b" (1 - 4 / 5)], st_three).
Proof.
  unfold transcribe, mapM, mbind, ret; cbv beta; rewrite !predict_three; reflexivity.
Qed.

Lemma fit_pm :
  fit fs_pm [sample_pm "b"] (init_state plain_extractor) = (Ok tt, st_pm).
Proof.
  unfold fit, mbind, get, lift; cbn [feature_extractor init_state fit_loop].
  change (path (sample_pm "b")) with "pm.wav"%string; rewrite load_pm; cbn [bind].
  rewrite extract_pm; cbn [bind fit_loop app].
  rewrite normalize_pm; reflexivity.
Qed.

Lemma predict_sample_spec_witness :
  predict_sample fs_pm (sample_pm "b") (init_state plain_extractor) =
    (Err (RuntimeError "Recognizer must be fitted before calling predict_sample"),
     init_state plain_extractor) /\
  predict_sample fs_pm (sample_pm "b") st_three =
    (Ok (mk_recognition_result (sample_pm "b") "b" (1 - 4 / 5)), st_three).
Proof.
  split.
  - apply (proj1 (predict_sample_spec fs_pm (init_state plain_extractor) (sample_pm "b")
                    (conj eq_refl (Forall_nil _)))); reflexivity.
  - destruct (proj2 (predict_sample_spec fs_pm st_three (sample_pm "b") st_three_inv)
                [1 / 2; - 1 / 2] 16000%Z [1 / 2; 1 / 2; 1 / 4; 1]
                ltac:(discriminate) load_pm extract_pm) as [k [Hk [Hmax [Hfirst E]]]].
    rewrite normalize_pm in Hmax, Hfirst, E; cbv beta in Hmax, Hfirst, E.
    cbn [embeddings st_three length] in Hk, Hmax.
    destruct k as [|[|[|k]]]; [| |exfalso|exfalso; lia].
    + exfalso; specialize (Hmax 1%nat ltac:(lia)).
      unfold cosine_similarity in Hmax; cbn [nth embeddings st_three combine map sum_R] in Hmax.
      lra.
    + rewrite E; unfold cosine_similarity; cbn [nth embeddings transcripts st_three combine map sum_R].
      do 4 f_equal; field.
    + specialize (Hfirst 1%nat ltac:(lia)).
      unfold cosine_similarity in Hfirst; cbn [nth embeddings st_three combine map sum_R] in Hfirst.
      lra.
Defined.


Lemma extract_fixed_length_witness :
  exists v, extract default_extractor [1 / 2; -1 / 2] 8000 = Ok v /\
    length v = 8%nat /\
    (prepared_signal default_extractor [1 / 2; -1 / 2] 8000 = Ok [] -> v = repeat 0 8).
Proof.
  apply (extract_fixed_length default_extractor [1 / 2; -1 / 2] 8000);
    simpl; lia.
Defined.

(** A 16-bit mono file holding the single sample [-32768]. *)
Definition fs_min : filesystem :=
  fun p => if String.eqb p "min.wav" then Some (mk_wav 1 2 44100 1 [0%Z; 128%Z]) else None.

Lemma load_wav_scaling_witness :
  exists f audio, fs_min "min.wav"%string = Some f /\ decoded_frames f = Ok audio /\
    44100%Z = framerate f /\
    ((sampwidth f = 1%Z /\ [scale_sample 2 (-32768)] = map (fun v => (IZR v - 128) / 128) audio) \/
     (sampwidth f = 2%Z /\ [scale_sample 2 (-32768)] = map (fun v => IZR v / 32768) audio) \/
     (sampwidth f = 4%Z /\ [scale_sample 2 (-32768)] = map (fun v => IZR v / 2147483648) audio)).
Proof.
  apply (load_wav_scaling fs_min "min.wav"%string); reflexivity.
Defined.

Lemma fit_atomic_witness : snd (fit fs0 [missing_sample] st_fitted) = st_fitted.
Proof.
  apply (fit_atomic fs0 [missing_sample] st_fitted (FileNotFoundError "Audio file not found"));
    reflexivity.
Defined.


Lemma evaluate_accuracy_witness :
  evaluate_recognizer fs0 [] st_fitted =
    (Err (ValueError "Cannot evaluate on an empty dataset"), st_fitted) /\
  exists rep, evaluate_recognizer fs_pm [sample_pm "b"; sample_pm "c"] st_three = (Ok rep, st_three) /\
    accuracy rep = 1 / 2 /\ total_samples rep = 2%Z.
Proof.
  split.
  - apply (proj1 (evaluate_accuracy fs0 [] st_fitted [] st_fitted ltac:(reflexivity)));
      reflexivity.
  - destruct (proj2 (evaluate_accuracy fs_pm [sample_pm "b"; sample_pm "c"] st_three _ st_three
                       transcribe_three) ltac:(discriminate)) as [rep [E [A T]]].
    exists rep; split; [exact E|]; split; [rewrite A; reflexivity | rewrite T; reflexivity].
Defined.

Lemma fit_reference_invariant_witness :
  fit fs_pm [sample_pm "b"] (init_state plain_extractor) = (Ok tt, st_pm) /\
  transcripts st_pm = ["b"%string] /\
  Forall2 (stored_for fs_pm plain_extractor) [sample_pm "b"] (embeddings st_pm) /\
  ref_inv st_pm /\ sqrt (sumsq (nth 0 (embeddings st_pm) [])) = 1 /\
  predict_sample fs_pm (sample_pm "c") st_pm =
    (Ok (mk_recognition_result (sample_pm "c") "b" (1 - 1)), st_pm) /\
  snd (predict_sample fs_pm (sample_pm "c") st_pm) = st_pm /\
  snd (transcribe fs_pm [sample_pm "b"; sample_pm "c"] st_pm) = st_pm.
Proof.
  destruct (fit_reference_invariant fs_pm [sample_pm "b"] (init_state plain_extractor) st_pm
              fit_pm) as [HT [HF [Hinv [Hp Ht]]]].
  split; [exact fit_pm|]; split; [exact HT|]; split; [exact HF|]; split; [exact Hinv|].
  split; [exact unit_pm|]; split; [apply predict_pm|]; split; [apply Hp | apply Ht].
Defined.

(** ** The stored embedding over binary64 floats *)

(** With Python 3.11's [sum] as with the compensated [sum] of 3.12 and
    later, [fit] on the one recording [[0.5, 0.25]] stores
    [[0.9479430066400371, 0.3159810022133457, 0.03949762527666821, 0.0]]. *)
Lemma fit_hq_float : forall py_sum math_cos math_sin,
  In py_sum [Binary64.sum_naive; Binary64.sum_neumaier] ->
  Binary64.fit py_sum math_cos math_sin fs_hq [sample_hq]
    (Binary64.init_state Binary64.plain_extractor)
  = (Ok tt, Binary64.mk_rec_state Binary64.plain_extractor
              [Binary64.e_half_quarter] ["b"%string]).
Proof.
  intros py_sum c s [<- | [<- | []]]; vm_compute; reflexivity.
Qed.

(** Python computes the norm of that stored embedding as
    [0.9999999999999999], the float just below [1]. *)
Lemma norm_half_quarter : forall py_sum, In py_sum [Binary64.sum_naive; Binary64.sum_neumaier] ->
  PrimFloat.sqrt (py_sum (map (fun v => PrimFloat.mul v v) Binary64.e_half_quarter))
  = PrimFloat.next_down PrimFloat.one.
Proof. intros py_sum [<- | [<- | []]]; vm_compute; reflexivity. Qed.

Lemma to_R_finite : forall x s m e, FloatOps.Prim2SF x = SpecFloat.S754_finite s m e ->
  Binary64.to_R x = (if s then - IZR (Z.pos m) else IZR (Z.pos m)) * powerRZ 2 e.
Proof. intros x s m e H; unfold Binary64.to_R; rewrite H; reflexivity. Qed.

Lemma powerRZ_2_neg : forall p, powerRZ 2 (Z.neg p) = / IZR (2 ^ Z.pos p).
Proof. intro p; unfold powerRZ; rewrite pow_IZR, positive_nat_Z; reflexivity. Qed.

Lemma e_half_quarter_R :
  map Binary64.to_R Binary64.e_half_quarter =
  [8538311542945077 / 9007199254740992; 5692207695296718 / 18014398509481984;
   5692207695296718 / 144115188075855872; 0].
Proof.
  unfold Binary64.e_half_quarter; cbn [map].
  rewrite (to_R_finite _ false 8538311542945077 (-53)) by (vm_compute; reflexivity).
  rewrite (to_R_finite _ false 5692207695296718 (-54)) by (vm_compute; reflexivity).
  rewrite (to_R_finite _ false 5692207695296718 (-57)) by (vm_compute; reflexivity).
  rewrite !powerRZ_2_neg.
  replace (2 ^ 53)%Z with 9007199254740992%Z by reflexivity.
  replace (2 ^ 54)%Z with 18014398509481984%Z by reflexivity.
  replace (2 ^ 57)%Z with 144115188075855872%Z by reflexivity.
  reflexivity.
Qed.

(** Its exact Euclidean norm is not [1] either. *)
Lemma e_half_quarter_not_unit : ~ float_unit_or_zero Binary64.e_half_quarter.
Proof.
  unfold float_unit_or_zero; intros [H | H].
  - unfold Binary64.e_half_quarter in H; apply Forall_inv in H.
    pose proof (f_equal (fun l => hd 0 l) e_half_quarter_R) as E.
    cbn [hd map Binary64.e_half_quarter] in E; rewrite E in H; lra.
  - rewrite e_half_quarter_R in H.
    apply unit_sumsq in H; unfold sumsq in H; cbn [map sum_R] in H; lra.
Qed.

(** C9: over binary64 floats the stored embeddings are not all the zero
    vector or of Euclidean norm exactly 1: [fit] on the recording
    [[0.5, 0.25]] stores a vector whose squares sum to
    [1 - 1.9e-16] in exact arithmetic, whatever [math.cos] and [math.sin]
    are, with the built-in [sum] of Python 3.11 and of Python 3.12. *)
Lemma fit_reference_invariant_counterexample :
  ~ (forall py_sum math_cos math_sin fs dataset st st',
       In py_sum [Binary64.sum_naive; Binary64.sum_neumaier] ->
       Binary64.fit py_sum math_cos math_sin fs dataset st = (Ok tt, st') ->
       Forall float_unit_or_zero (Binary64.embeddings st')).
Proof.
  intro H.
  assert (Hin : In Binary64.sum_naive [Binary64.sum_naive; Binary64.sum_neumaier])
    by (left; reflexivity).
  pose proof (H _ PrimFloat.sqrt PrimFloat.sqrt _ _ _ _ Hin
                (fit_hq_float _ PrimFloat.sqrt PrimFloat.sqrt Hin)) as HF.
  cbn [Binary64.embeddings] in HF; apply Forall_inv in HF.
  exact (e_half_quarter_not_unit HF).
Qed.


Lemma extract_rate0_example : extract default_extractor [1] 0 = Err ZeroDivisionError.
Proof.
  destruct (prepared_signal_cases default_extractor [1] 0) as [[_ [_ [_ Hp]]] | [s' [Hp Hiff]]].
  - unfold extract; rewrite Hp; reflexivity.
  - exfalso; unfold prepared_signal, resample, py_div in Hp; simpl in Hp.
    destruct (Req_EM_T (IZR 0) 0) as [_|N]; [discriminate | apply N; reflexivity].
Qed.

Lemma extract_division_safety_witness :
  ZeroDivisionError = ZeroDivisionError /\
  ((0%Z <> sample_rate default_extractor /\ 0%Z = 0%Z /\ [1] <> []) \/
   (sample_rate default_extractor = 0%Z /\
    exists f, In f (probe_frequencies default_extractor) /\ 0 < f)).
Proof.
  apply (extract_division_safety default_extractor [1] 0 ZeroDivisionError).
  exact extract_rate0_example.
Defined.

(* ------------------------------------------------------------------ *)
(** * Further properties of the code *)

(** ** Evaluation report *)

Definition count_pair (results : list recognition_result) (truth pred : string) : nat :=
  length (filter (fun r => String.eqb (transcript (rr_sample r)) truth
                           && String.eqb (predicted_transcript r) pred) results).

Definition add_opt (o : option Z) (n : nat) : option Z :=
  match o, n with
  | None, O => None
  | None, _ => Some (Z.of_nat n)
  | Some c, _ => Some (c + Z.of_nat n)%Z
  end.

Lemma incr_count_find : forall key k d,
  assoc_find k (incr_count key d) =
  if String.eqb key k
  then Some (match assoc_find k d with Some c => (c + 1)%Z | None => 1%Z end)
  else assoc_find k d.
Proof.
  intros key k d; induction d as [|[k' c] rest IH]; simpl.
  - destruct (String.eqb key k); reflexivity.
  - destruct (String.eqb_spec k' key) as [->|Nk]; simpl.
    + destruct (String.eqb_spec key k); reflexivity.
    + destruct (String.eqb_spec k' k) as [->|Nk']; simpl.
      * destruct (String.eqb_spec key k); [congruence | reflexivity].
      * exact IH.
Qed.

Lemma confusion_add_lookup : forall t0 p0 m t p,
  confusion_lookup (confusion_add t0 p0 m) t p =
  if String.eqb t0 t && String.eqb p0 p
  then Some (match confusion_lookup m t p with Some c => (c + 1)%Z | None => 1%Z end)
  else confusion_lookup m t p.
Proof.
  intros t0 p0 m t p; induction m as [|[k d] rest IH]; unfold confusion_lookup in *; simpl.
  - destruct (String.eqb_spec t0 t); simpl; reflexivity.
  - destruct (String.eqb_spec k t0) as [->|Nk]; simpl.
    + destruct (String.eqb_spec t0 t); simpl; [rewrite incr_count_find; reflexivity|].
      destruct (String.eqb_spec t0 t); [congruence|reflexivity].
    + destruct (String.eqb_spec k t) as [->|Nk']; simpl.
      * destruct (String.eqb_spec t0 t); [congruence|reflexivity].
      * exact IH.
Qed.

Lemma add_opt_succ : forall o n,
  add_opt (Some (match o with Some c => (c + 1)%Z | None => 1%Z end)) n = add_opt o (S n).
Proof.
  intros [c|] [|n]; cbv beta iota delta [add_opt]; f_equal; lia.
Qed.

Lemma confusion_fold_lookup : forall results m t p,
  confusion_lookup (fold_left (fun m r => confusion_add (transcript (rr_sample r))
                                                        (predicted_transcript r) m) results m) t p
  = add_opt (confusion_lookup m t p) (count_pair results t p).
Proof.
  unfold count_pair; induction results as [|r rs IH]; intros m t p; simpl.
  - destruct (confusion_lookup m t p); simpl; [rewrite Z.add_0_r|]; reflexivity.
  - rewrite IH, confusion_add_lookup.
    destruct (String.eqb (transcript (rr_sample r)) t && String.eqb (predicted_transcript r) p);
      simpl; [|reflexivity].
    apply add_opt_succ.
Qed.

Lemma evaluate_ok_inv : forall fs ds st rep st',
  evaluate_recognizer fs ds st = (Ok rep, st') ->
  exists results, transcribe fs ds st = (Ok results, st') /\ results <> [] /\
    rep = mk_report (IZR (Z.of_nat (length (filter is_correct results)))
                     / IZR (Z.of_nat (length results)))
                    (Z.of_nat (length results))
                    (fold_left (fun m r => confusion_add (transcript (rr_sample r))
                                                         (predicted_transcript r) m) results []).
Proof.
  intros fs ds st rep st' H; unfold evaluate_recognizer, mbind at 1 in H.
  destruct (transcribe fs ds st) as [[results|e] st1]; [|discriminate].
  exists results.
  destruct results as [|r rs]; [discriminate|].
  simpl (Z.of_nat (length (r :: rs)) =? 0)%Z in H.
  rewrite count_correct in H; unfold mbind, lift, ret in H.
  rewrite py_div_ok in H.
  2:{ apply not_0_IZR; simpl; lia. }
  inversion H; subst; split; [reflexivity | split; [discriminate | reflexivity]].
Qed.

(** The confusion table of a report counts, for every true label [t] and
    predicted label [p], the results with that pair; pairs that never occur
    are absent. *)
Theorem evaluate_confusion_counts : forall fs ds st rep st',
  evaluate_recognizer fs ds st = (Ok rep, st') ->
  exists results, transcribe fs ds st = (Ok results, st') /\
    total_samples rep = Z.of_nat (length results) /\
    forall t p, confusion_lookup (confusion rep) t p =
      (if Nat.eqb (count_pair results t p) 0 then None
       else Some (Z.of_nat (count_pair results t p))).
Proof.
  intros fs ds st rep st' H.
  destruct (evaluate_ok_inv _ _ _ _ _ H) as [results [Ht [Hne ->]]].
  exists results; split; [exact Ht|]; split; [reflexivity|].
  intros t p; simpl; rewrite confusion_fold_lookup.
  unfold add_opt; simpl.
  destruct (count_pair results t p); reflexivity.
Qed.

(** A report always covers at least one sample and its accuracy lies in
    [[0, 1]]. *)
Theorem evaluate_accuracy_range : forall fs ds st rep st',
  evaluate_recognizer fs ds st = (Ok rep, st') ->
  (0 < total_samples rep)%Z /\ 0 <= accuracy rep <= 1.
Proof.
  intros fs ds st rep st' H.
  destruct (evaluate_ok_inv _ _ _ _ _ H) as [results [_ [Hne ->]]]; simpl.
  assert (Hl : (0 < length results)%nat) by (destruct results; [congruence | simpl; lia]).
  pose proof (filter_length_le is_correct results) as Hf.
  split; [lia|].
  assert (Hpos : 0 < IZR (Z.of_nat (length results))) by (apply IZR_lt; lia).
  assert (Hle : IZR (Z.of_nat (length (filter is_correct results)))
                <= IZR (Z.of_nat (length results))) by (apply IZR_le; lia).
  assert (H0 : 0 <= IZR (Z.of_nat (length (filter is_correct results)))) by (apply IZR_le; lia).
  split.
  - apply Rmult_le_pos; [lra | left; apply Rinv_0_lt_compat; lra].
  - apply (Rmult_le_reg_r (IZR (Z.of_nat (length results)))); [lra|].
    unfold Rdiv; rewrite Rmult_assoc, Rinv_l by lra; lra.
Qed.

(** ** Recognizer *)

Lemma predict_sample_ok_sample : forall fs sample st r st',
  predict_sample fs sample st = (Ok r, st') -> rr_sample r = sample.
Proof.
  intros fs sample st r st' H; unfold predict_sample, mbind, get, lift, raise, ret in H;
    simpl in H.
  destruct (negb (is_fitted st)); [discriminate|].
  destruct (load_wav_mono fs (path sample)) as [[sig sr]|e]; [|discriminate].
  destruct (extract (feature_extractor st) sig sr) as [f|e]; [|discriminate].
  destruct (scan (embeddings st) (normalize f)) as [bi bs].
  destruct (py_index (transcripts st) bi); inversion H; reflexivity.
Qed.

Lemma transcribe_ok_inv : forall fs samples st results st',
  transcribe fs samples st = (Ok results, st') ->
  st' = st /\ map rr_sample results = samples.
Proof.
  intros fs samples st results st' H.
  pose proof (transcribe_state fs samples st) as Hs; rewrite H in Hs; simpl in Hs.
  split; [exact Hs|]; subst st'.
  revert results H; unfold transcribe; induction samples as [|s ss IH]; intros results H;
    simpl in H.
  - inversion H; reflexivity.
  - unfold mbind at 1 in H.
    pose proof (predict_sample_state fs s st) as Hp.
    destruct (predict_sample fs s st) as [[r|e] st1] eqn:Ep; [|discriminate].
    simpl in Hp; subst st1.
    apply predict_sample_ok_sample in Ep.
    unfold mbind in H; destruct (mapM (predict_sample fs) ss st) as [[rs|e] st2] eqn:Em;
      [|discriminate].
    unfold ret in H; inversion H; subst; simpl; f_equal.
    apply IH; reflexivity.
Qed.

(** [transcribe] returns one result per sample, in the order of the
    samples, each carrying its own sample, and leaves the recognizer as it
    was. *)
Theorem transcribe_results_order : forall fs samples st results st',
  transcribe fs samples st = (Ok results, st') ->
  st' = st /\ map rr_sample results = samples.
Proof.
  exact transcribe_ok_inv.
Qed.

(** On a recognizer with no reference set, [transcribe] of a non-empty
    list raises the not-fitted [RuntimeError]; [evaluate_recognizer] then
    raises that [RuntimeError] too, while on an empty dataset it raises the
    empty-dataset [ValueError] whether fitted or not. *)
Theorem unfitted_transcribe_evaluate : forall fs samples st,
  (embeddings st = [] -> samples <> [] ->
     transcribe fs samples st =
       (Err (RuntimeError "Recognizer must be fitted before calling predict_sample"), st) /\
     evaluate_recognizer fs samples st =
       (Err (RuntimeError "Recognizer must be fitted before calling predict_sample"), st)) /\
  evaluate_recognizer fs [] st =
    (Err (ValueError "Cannot evaluate on an empty dataset"), st).
Proof.
  intros fs samples st; split; [|reflexivity].
  intros E Hne; destruct samples as [|s ss]; [congruence|].
  assert (Ht : transcribe fs (s :: ss) st =
    (Err (RuntimeError "Recognizer must be fitted before calling predict_sample"), st)).
  { unfold transcribe; simpl; unfold mbind at 1, predict_sample, mbind at 1, get, is_fitted.
    rewrite E; reflexivity. }
  split; [exact Ht|].
  unfold evaluate_recognizer, mbind at 1; rewrite Ht; reflexivity.
Qed.

Lemma fit_loop_shape : forall fs cfg ds embs trs E T,
  fit_loop fs cfg ds embs trs = Ok (E, T) ->
  T = trs ++ map transcript ds /\ length E = (length embs + length ds)%nat.
Proof.
  intros fs cfg ds; induction ds as [|s ds IH]; intros embs trs E T H; simpl in H.
  - inversion H; subst; rewrite app_nil_r; simpl; split; [reflexivity | lia].
  - destruct (load_wav_mono fs (path s)) as [[sig sr]|e]; simpl in H; [|discriminate].
    destruct (extract cfg sig sr) as [feats|e]; simpl in H; [|discriminate].
    destruct (IH _ _ _ _ H) as [HT HE]; subst T; split.
    + rewrite <- app_assoc; reflexivity.
    + rewrite HE, length_app; simpl; lia.
Qed.

(** [fit] on an empty dataset raises its [ValueError] and changes nothing;
    a successful [fit] stores one embedding per sample and the samples'
    transcripts in dataset order, keeps the feature extractor, and leaves
    the recognizer fitted. *)
Theorem fit_success_shape : forall fs ds st,
  fit fs [] st = (Err (ValueError "Dataset must contain at least one sample"), st) /\
  (forall u st', fit fs ds st = (Ok u, st') ->
     transcripts st' = map transcript ds /\
     length (embeddings st') = length ds /\
     feature_extractor st' = feature_extractor st /\
     is_fitted st' = true).
Proof.
  intros fs ds st; split; [reflexivity|].
  intros u st' H; unfold fit, mbind, get, lift in H; simpl in H.
  destruct (fit_loop fs (feature_extractor st) ds [] []) as [[embs trs]|e] eqn:Ef;
    [|discriminate].
  apply fit_loop_shape in Ef; simpl in Ef; destruct Ef as [-> HE].
  destruct embs as [|x xs]; [discriminate|].
  unfold set_embeddings, set_transcripts in H; inversion H; subst; simpl.
  split; [reflexivity|]; split; [exact HE|]; split; reflexivity.
Qed.

(** [fit] replaces the reference set wholesale: its outcome, and on
    success the new recognizer, depend only on the feature extractor and
    the dataset, not on any reference set fitted before. *)
Theorem fit_replaces_references : forall fs ds st1 st2,
  feature_extractor st1 = feature_extractor st2 ->
  fst (fit fs ds st1) = fst (fit fs ds st2) /\
  (fst (fit fs ds st1) = Ok tt -> snd (fit fs ds st1) = snd (fit fs ds st2)).
Proof.
  intros fs ds st1 st2 Hc; unfold fit, mbind, get, lift; simpl; rewrite Hc.
  destruct (fit_loop fs (feature_extractor st2) ds [] []) as [[embs trs]|e];
    [|split; [reflexivity | discriminate]].
  destruct embs as [|x xs]; unfold raise; simpl; [split; [reflexivity | discriminate]|].
  split; [reflexivity|]; intros _; rewrite Hc; reflexivity.
Qed.

Lemma normalize_zeros : forall n,
  normalize (repeat 0 n) = repeat 0 n.
Proof.
  intro n; unfold normalize.
  assert (Hs : sumsq (repeat 0 n) = 0)
    by (induction n; unfold sumsq in *; simpl in *; [reflexivity | rewrite IHn; ring]).
  rewrite Hs, sqrt_0; destruct (Req_EM_T 0 0) as [_|N]; [|congruence].
  clear Hs; induction n; simpl; [reflexivity | rewrite IHn; reflexivity].
Qed.

Lemma scan_all_zero : forall refs q,
  refs <> [] -> Forall (fun x => x = 0) q -> scan refs q = (0%Z, 0).
Proof.
  intros refs q Hne Hq; unfold scan.
  destruct refs as [|r rs]; [congruence|]; simpl.
  rewrite (dot_zero_r r q Hq).
  destruct (Rlt_dec (-1) 0) as [_|N]; [|lra].
  clear Hne; generalize 1%nat; induction rs as [|r' rs IH]; intro k; simpl; [reflexivity|].
  rewrite (dot_zero_r r' q Hq).
  destruct (Rlt_dec 0 0) as [L|_]; [lra|]; apply IH.
Qed.

(** A query that decodes to an empty signal (a file with no frames) has an
    all-zero feature vector: a fitted recognizer labels it with its first
    stored transcript at distance exactly [1]. *)
Theorem predict_silent_query : forall fs sample st sr,
  ref_inv st -> embeddings st <> [] ->
  load_wav_mono fs (path sample) = Ok ([], sr) ->
  predict_sample fs sample st =
    (Ok (mk_recognition_result sample (nth 0 (transcripts st) ""%string) 1), st).
Proof.
  intros fs sample st sr [Hlen _] Hne Hload.
  assert (Hext : extract (feature_extractor st) [] sr =
                 Ok (repeat 0 (length (probe_frequencies (feature_extractor st)) + 4))).
  { unfold extract, prepared_signal.
    destruct (negb (sr =? sample_rate (feature_extractor st))%Z); simpl; [|reflexivity].
    unfold resample; rewrite orb_true_r; reflexivity. }
  assert (Hq : Forall (fun x => x = 0)
                 (repeat 0 (length (probe_frequencies (feature_extractor st)) + 4))).
  { apply Forall_forall; intros x Hx; apply repeat_spec in Hx; exact Hx. }
  pose proof (scan_all_zero _ _ Hne Hq) as Hscan.
  assert (Hidx : py_index (transcripts st) 0 = Ok (nth 0 (transcripts st) ""%string)).
  { apply py_index_ok; destruct (embeddings st); [congruence | simpl in Hlen; lia]. }
  unfold predict_sample, mbind, get, lift.
  destruct (is_fitted st) eqn:Ef.
  2:{ unfold is_fitted in Ef; destruct (embeddings st); congruence. }
  cbn [negb]; rewrite Hload, Hext, normalize_zeros, Hscan, Hidx.
  unfold ret; simpl; repeat f_equal; ring.
Qed.

(** ** Feature extractor *)

Lemma count_crossings_bounds : forall prev rest,
  (0 <= count_crossings prev rest <= Z.of_nat (length rest))%Z.
Proof.
  intros prev rest; revert prev; induction rest as [|v rest IH]; intro prev; simpl; [lia|].
  specialize (IH v); destruct (is_crossing prev v); lia.
Qed.

Lemma zero_crossing_rate_bounds : forall s z,
  zero_crossing_rate s = Ok z -> 0 <= z <= 1.
Proof.
  intros [|x0 [|x1 rest]] z H; try (simpl in H; injection H as <-; lra).
  unfold zero_crossing_rate in H; rewrite py_div_ok in H by apply len_R_minus_1_neq.
  injection H as <-.
  pose proof (count_crossings_bounds x0 (x1 :: rest)) as [Lo Hi].
  cbn [count_crossings] in Lo, Hi.
  assert (Hl : len_R (x0 :: x1 :: rest) - 1 = IZR (Z.of_nat (length (x1 :: rest)))).
  { unfold len_R; rewrite <- INR_IZR_INZ; simpl length; rewrite S_INR; ring. }
  rewrite Hl.
  assert (Hp : 0 < IZR (Z.of_nat (length (x1 :: rest)))) by (apply IZR_lt; simpl; lia).
  apply IZR_le in Lo; apply IZR_le in Hi.
  split.
  - unfold Rdiv; apply Rmult_le_pos; [exact Lo | left; apply Rinv_0_lt_compat; exact Hp].
  - apply (Rmult_le_reg_r (IZR (Z.of_nat (length (x1 :: rest))))); [exact Hp|].
    unfold Rdiv; rewrite Rmult_assoc, Rinv_l by lra; lra.
Qed.

(** [_zero_crossing_rate] is a rate: it lies in [[0, 1]]. *)
Theorem zero_crossing_rate_range : forall s z,
  zero_crossing_rate s = Ok z -> 0 <= z <= 1.
Proof. exact zero_crossing_rate_bounds. Qed.

Lemma map_result_forall2 : forall {A B : Type} (f : A -> result B) l ys,
  map_result f l = Ok ys -> Forall2 (fun x y => f x = Ok y) l ys.
Proof.
  intros A B f l; induction l as [|x l IH]; intros ys H; simpl in H.
  - inversion H; constructor.
  - destruct (f x) as [y|e] eqn:Hx; simpl in H; [|discriminate].
    destruct (map_result f l) eqn:Hl; simpl in H; [|discriminate].
    inversion H; subst; constructor; [exact Hx | apply IH; reflexivity].
Qed.

Lemma sum_R_nonneg : forall l, Forall (fun x => 0 <= x) l -> 0 <= sum_R l.
Proof.
  intros l H; induction H; simpl; lra.
Qed.

Lemma average_power_ok_range : forall s f sr p,
  average_power s f sr = Ok p -> 0 <= p /\ (f <= 0 -> p = 0).
Proof.
  intros s f sr p H; unfold average_power in H.
  destruct (Rle_dec f 0) as [Hf|Hf]; [inversion H; split; [lra | reflexivity]|].
  destruct (py_div (2 * PI * f) (IZR sr)) as [a|e]; simpl in H; [|discriminate].
  unfold py_div in H; destruct (Req_EM_T (len_R s) 0) as [E|E]; simpl in H; [discriminate|].
  inversion H; subst p; split; [|intro; lra].
  pose proof (pos_INR (length s)) as Hn; unfold len_R in E.
  apply Rmult_le_pos.
  - unfold Rdiv; apply Rmult_le_pos; [lra|]; left; apply Rinv_0_lt_compat; unfold len_R.
    destruct Hn; [assumption | congruence].
  - set (c := sum_R _); set (d := sum_R _); nra.
Qed.

Lemma div_len_nonneg : forall (s : list R) x,
  0 <= x -> s <> [] -> 0 <= x / len_R s.
Proof.
  intros s x Hx Hs; pose proof (len_R_pos s Hs).
  unfold Rdiv; apply Rmult_le_pos; [exact Hx | left; apply Rinv_0_lt_compat; lra].
Qed.

(** Whatever the signal, a feature vector [extract] returns is
    [[mean_abs; std; variance; zcr] ++ powers] with [mean_abs >= 0],
    [variance >= 0], [std = sqrt variance], [zcr] in [[0, 1]], one
    non-negative power per probe frequency, and power [0] at every probe
    frequency [<= 0]. *)
Theorem extract_feature_ranges : forall cfg s sr v,
  extract cfg s sr = Ok v ->
  exists mean_abs std variance zcr powers,
    v = [mean_abs; std; variance; zcr] ++ powers /\
    0 <= mean_abs /\ 0 <= variance /\ std = sqrt variance /\ 0 <= zcr <= 1 /\
    Forall2 (fun f p => 0 <= p /\ (f <= 0 -> p = 0)) (probe_frequencies cfg) powers.
Proof.
  intros cfg s sr v H; unfold extract in H.
  destruct (prepared_signal cfg s sr) as [s'|e]; cbn [bind] in H; [|discriminate].
  destruct s' as [|x rest].
  - inversion H; subst v.
    exists 0, 0, 0, 0, (repeat 0 (length (probe_frequencies cfg))).
    split; [rewrite Nat.add_comm; reflexivity|].
    split; [lra|]; split; [lra|]; split; [symmetry; apply sqrt_0|]; split; [lra|].
    induction (probe_frequencies cfg); simpl; constructor; auto; split; lra.
  - assert (Hne : x :: rest <> []) by discriminate.
    cbn iota in H; remember (x :: rest) as L eqn:EL; clear EL.
    rewrite py_div_ok in H by (apply len_R_neq_0; exact Hne); cbn [bind] in H.
    set (mean := sum_R L / len_R L) in H.
    rewrite py_div_ok in H by (apply len_R_neq_0; exact Hne); cbn [bind] in H.
    rewrite py_div_ok in H by (apply len_R_neq_0; exact Hne); cbn [bind] in H.
    destruct (zero_crossing_rate L) as [z|e] eqn:Hz; cbn [bind] in H; [|discriminate].
    destruct (map_result _ (probe_frequencies cfg)) as [ps|e] eqn:Hm; cbn [bind] in H;
      [|discriminate].
    injection H as <-.
    eexists _, _, _, z, ps; split; [reflexivity|].
    split; [apply div_len_nonneg; [|exact Hne]|].
    { apply sum_R_nonneg, Forall_forall; intros y Hy; apply in_map_iff in Hy.
      destruct Hy as [w [<- _]]; apply Rabs_pos. }
    split; [apply div_len_nonneg; [|exact Hne]|].
    { apply sum_R_nonneg, Forall_forall; intros y Hy; apply in_map_iff in Hy.
      destruct Hy as [w [<- _]]; apply pow2_ge_0. }
    split; [reflexivity|]; split; [exact (zero_crossing_rate_bounds _ _ Hz)|].
    apply map_result_forall2 in Hm.
    eapply Forall2_impl; [|exact Hm]; intros f p Hp.
    exact (average_power_ok_range _ _ _ _ Hp).
Qed.

(** ** Loading and saving WAV files *)

(** [load_wav_mono] raises [FileNotFoundError] for a missing path and,
    for a readable header, [ValueError] for every sample width other than
    1, 2 or 4 bytes. *)
Theorem load_wav_errors : forall fs p,
  (fs p = None -> load_wav_mono fs p = Err (FileNotFoundError "Audio file not found")) /\
  (forall f, fs p = Some f -> (0 < nchannels f)%Z -> (0 < sampwidth f)%Z ->
     ~ In (sampwidth f) [1; 2; 4]%Z ->
     load_wav_mono fs p = Err (ValueError "Unsupported sample width")).
Proof.
  intros fs p; split; intros; unfold load_wav_mono.
  - rewrite H; reflexivity.
  - rewrite H.
    replace ((nchannels f <=? 0) || (sampwidth f <=? 0))%Z with false
      by (symmetry; apply orb_false_iff; split; apply Z.leb_gt; lia).
    unfold decoded_frames, supported_typecode.
    destruct (Z.eqb_spec (sampwidth f) 1) as [E|_]; [exfalso; apply H2; rewrite E; left; reflexivity|].
    destruct (Z.eqb_spec (sampwidth f) 2) as [E|_];
      [exfalso; apply H2; rewrite E; right; left; reflexivity|].
    destruct (Z.eqb_spec (sampwidth f) 4) as [E|_];
      [exfalso; apply H2; rewrite E; right; right; left; reflexivity|].
    reflexivity.
Qed.

Definition is_byte (b : Z) : Prop := (0 <= b <= 255)%Z.

Lemma le_value_bounds : forall bs,
  Forall is_byte bs -> (0 <= le_value bs < 2 ^ (8 * Z.of_nat (length bs)))%Z.
Proof.
  intros bs H; induction H as [|b bs Hb _ IH]; [simpl; lia|].
  cbn [le_value length]; unfold is_byte in Hb.
  replace (8 * Z.of_nat (S (length bs)))%Z with (8 + 8 * Z.of_nat (length bs))%Z by lia.
  rewrite Z.pow_add_r by lia; change (2 ^ 8)%Z with 256%Z; lia.
Qed.

Lemma chunks_props : forall {A : Type} fuel w (l : list A) c,
  (0 < w)%nat -> In c (chunks fuel w l) ->
  c <> [] /\ (length c <= w)%nat /\ incl c l.
Proof.
  intros A fuel; induction fuel as [|fuel IH]; intros w l c Hw Hc; simpl in Hc; [contradiction|].
  destruct l as [|x l']; [contradiction|].
  destruct Hc as [<-|Hc].
  - split; [destruct w; [lia | discriminate]|].
    split; [rewrite length_firstn; lia|].
    intros y Hy; rewrite <- (firstn_skipn w (x :: l')); apply in_or_app; left; exact Hy.
  - destruct (IH _ _ _ Hw Hc) as [Hne [Hl Hi]]; split; [exact Hne|]; split; [exact Hl|].
    intros y Hy; rewrite <- (firstn_skipn w (x :: l')); apply in_or_app; right; apply Hi, Hy.
Qed.

(** The range of decoded items: ['B'] gives [[0, 255]], a signed
    [w]-byte typecode [[-2^(8w-1), 2^(8w-1) - 1]]. *)
Definition item_lo (signed : bool) (w : Z) : Z := if signed then - 2 ^ (8 * w - 1) else 0.
Definition item_hi (signed : bool) (w : Z) : Z :=
  if signed then 2 ^ (8 * w - 1) - 1 else 2 ^ (8 * w) - 1.

Lemma item_of_bytes_range : forall signed w bs,
  (1 <= w)%nat -> (length bs <= w)%nat -> Forall is_byte bs ->
  (item_lo signed (Z.of_nat w) <= item_of_bytes signed w bs <= item_hi signed (Z.of_nat w))%Z.
Proof.
  intros signed w bs Hw Hl Hb.
  pose proof (le_value_bounds bs Hb) as [L U].
  assert (Hp : (2 ^ (8 * Z.of_nat (length bs)) <= 2 ^ (8 * Z.of_nat w))%Z)
    by (apply Z.pow_le_mono_r; lia).
  assert (H2 : (2 ^ (8 * Z.of_nat w) = 2 * 2 ^ (8 * Z.of_nat w - 1))%Z).
  { rewrite <- Z.pow_succ_r by lia; f_equal; lia. }
  assert (Hq : (0 < 2 ^ (8 * Z.of_nat w - 1))%Z) by (apply Z.pow_pos_nonneg; lia).
  unfold item_of_bytes, item_lo, item_hi; destruct signed; cbn [andb].
  - destruct (Z.leb_spec (2 ^ (8 * Z.of_nat w - 1)) (le_value bs)); lia.
  - lia.
Qed.

Lemma fold_add_bounds : forall lo hi c a,
  Forall (fun v => (lo <= v <= hi)%Z) c ->
  (a + Z.of_nat (length c) * lo <= fold_left Z.add c a <= a + Z.of_nat (length c) * hi)%Z.
Proof.
  intros lo hi c a H; revert a; induction H as [|v c Hv _ IH]; intro a;
    cbn [fold_left length]; [lia|].
  specialize (IH (a + v)%Z); lia.
Qed.

Lemma downmix_range : forall lo hi channels audio,
  (lo <= 0 <= hi)%Z -> (1 < channels)%Z ->
  Forall (fun v => (lo <= v <= hi)%Z) audio ->
  Forall (fun v => (lo <= v <= hi)%Z) (downmix channels audio).
Proof.
  intros lo hi ch audio H0 Hch H; unfold downmix.
  apply Forall_forall; intros v Hv; apply in_map_iff in Hv; destruct Hv as [c [<- Hc]].
  destruct (chunks_props (length audio) (Z.to_nat ch) audio c ltac:(lia) Hc) as [Hne [_ Hi]].
  assert (Hcf : Forall (fun v => (lo <= v <= hi)%Z) c).
  { apply Forall_forall; intros x Hx; exact (proj1 (Forall_forall _ _) H x (Hi x Hx)). }
  pose proof (fold_add_bounds lo hi c 0 Hcf) as B.
  assert (Hk : (0 < Z.of_nat (length c))%Z) by (destruct c; [congruence | simpl; lia]).
  set (k := Z.of_nat (length c)) in *; set (s := fold_left Z.add c 0%Z) in *.
  Z.to_euclidean_division_equations; nia.
Qed.

Lemma decoded_frames_range : forall f audio,
  Forall is_byte (wav_data f) -> decoded_frames f = Ok audio ->
  exists signed, supported_typecode (sampwidth f) = Some signed /\
    Forall (fun v => (item_lo signed (sampwidth f) <= v <= item_hi signed (sampwidth f))%Z) audio.
Proof.
  intros f audio Hb H; unfold decoded_frames in H.
  destruct (supported_typecode (sampwidth f)) as [signed|] eqn:Ht; [|discriminate].
  exists signed; split; [reflexivity|].
  assert (Hw : (1 <= sampwidth f)%Z).
  { unfold supported_typecode in Ht.
    destruct (Z.eqb_spec (sampwidth f) 1); [lia|].
    destruct (Z.eqb_spec (sampwidth f) 2); [lia|].
    destruct (Z.eqb_spec (sampwidth f) 4); [lia | discriminate]. }
  set (raw := firstn _ (wav_data f)) in H.
  assert (Hraw : Forall is_byte raw).
  { apply Forall_forall; intros x Hx; apply (proj1 (Forall_forall _ _) Hb).
    rewrite <- (firstn_skipn (Z.to_nat (nframes f * (nchannels f * sampwidth f))) (wav_data f)).
    apply in_or_app; left; exact Hx. }
  unfold array_frombytes in H.
  destruct (Nat.eqb _ 0); cbn [bind] in H; [|discriminate].
  set (items := map _ _) in H.
  assert (Hitems : Forall (fun v => (item_lo signed (sampwidth f) <= v
                                     <= item_hi signed (sampwidth f))%Z) items).
  { apply Forall_forall; intros v Hv; unfold items in Hv; apply in_map_iff in Hv.
    destruct Hv as [c [<- Hc]].
    assert (Hw0 : (0 < Z.to_nat (sampwidth f))%nat) by lia.
    destruct (chunks_props _ _ _ _ Hw0 Hc) as [_ [Hl Hi]].
    assert (Hcb : Forall is_byte c).
    { apply Forall_forall; intros x Hx; exact (proj1 (Forall_forall _ _) Hraw x (Hi x Hx)). }
    pose proof (item_of_bytes_range signed (Z.to_nat (sampwidth f)) c ltac:(lia) Hl Hcb) as R.
    rewrite Z2Nat.id in R by lia; exact R. }
  injection H as <-.
  destruct (1 <? nchannels f)%Z eqn:Hc; [|exact Hitems].
  apply downmix_range; [| apply Z.ltb_lt; exact Hc | exact Hitems].
  assert (0 < 2 ^ (8 * sampwidth f - 1))%Z by (apply Z.pow_pos_nonneg; lia).
  assert (0 < 2 ^ (8 * sampwidth f))%Z by (apply Z.pow_pos_nonneg; lia).
  unfold item_lo, item_hi; destruct signed; lia.
Qed.

(** For a file whose data chunk holds bytes, every sample [load_wav_mono]
    returns lies in [[-1, 1)], for each supported width and any number of
    channels. *)
Theorem load_wav_range : forall fs p f signal sr,
  fs p = Some f -> Forall is_byte (wav_data f) ->
  load_wav_mono fs p = Ok (signal, sr) ->
  Forall (fun x => -1 <= x < 1) signal.
Proof.
  intros fs p f signal sr Hf Hb H; unfold load_wav_mono in H; rewrite Hf in H.
  destruct (_ || _); [discriminate|].
  destruct (decoded_frames f) as [audio|e] eqn:Hd; cbn [bind] in H; [|discriminate].
  injection H as <- _.
  destruct (decoded_frames_range f audio Hb Hd) as [signed [Ht Hr]].
  apply Forall_forall; intros x Hx; apply in_map_iff in Hx; destruct Hx as [v [<- Hv]].
  pose proof (proj1 (Forall_forall _ _) Hr v Hv) as [Lo Hi].
  unfold supported_typecode in Ht; unfold scale_sample.
  destruct (Z.eqb_spec (sampwidth f) 1) as [E1|N1].
  - injection Ht as <-; rewrite E1 in Lo, Hi; unfold item_lo, item_hi in Lo, Hi; simpl in Lo, Hi.
    apply IZR_le in Lo; apply IZR_le in Hi; split; lra.
  - assert (Hs : signed = true /\ (sampwidth f = 2 \/ sampwidth f = 4)%Z).
    { destruct (Z.eqb_spec (sampwidth f) 2); [injection Ht; auto|].
      destruct (Z.eqb_spec (sampwidth f) 4); [injection Ht; auto | discriminate]. }
    destruct Hs as [-> Hw]; unfold item_lo, item_hi in Lo, Hi.
    assert (Hq : (0 < 2 ^ (8 * sampwidth f - 1))%Z) by (apply Z.pow_pos_nonneg; lia).
    set (q := (2 ^ (8 * sampwidth f - 1))%Z) in *.
    apply IZR_le in Lo; apply IZR_le in Hi; apply IZR_lt in Hq.
    rewrite opp_IZR in Lo; rewrite minus_IZR in Hi.
    split.
    + apply (Rmult_le_reg_r (IZR q)); [exact Hq|].
      unfold Rdiv; rewrite Rmult_assoc, Rinv_l by lra; lra.
    + apply (Rmult_lt_reg_r (IZR q)); [exact Hq|].
      unfold Rdiv; rewrite Rmult_assoc, Rinv_l by lra; lra.
Qed.

Lemma Forall2_map_r : forall {A B : Type} (P : A -> B -> Prop) (g : A -> B) l,
  (forall x, In x l -> P x (g x)) -> Forall2 P l (map g l).
Proof.
  intros A B P g l H; induction l as [|x l IH]; simpl; constructor.
  - apply H; left; reflexivity.
  - apply IH; intros y Hy; apply H; right; exact Hy.
Qed.

(** [save_wav_mono] clips before quantising: reading back what it wrote
    (frame rate in [(0, 2 ^ 31)], signal short enough for the header)
    gives one sample per input sample, every input [>= 1] saturates to [32767/32768], every input [<= -1] to
    [-32767/32768], and no recovered sample exceeds [32767/32768] in
    magnitude. *)
Theorem save_wav_clipping : forall fs p signal rate,
  (0 < rate < 2 ^ 31)%Z -> (36 + 2 * Z.of_nat (length signal) < 2 ^ 32)%Z ->
  exists fs' loaded, save_wav_mono fs p signal rate = Ok fs' /\
    load_wav_mono fs' p = Ok (loaded, rate) /\
    Forall2 (fun x y => (1 <= x -> y = 32767 / 32768) /\ (x <= -1 -> y = - 32767 / 32768) /\
                        Rabs y <= 32767 / 32768) signal loaded.
Proof.
  intros fs p signal rate Hr Hn.
  destruct (save_load fs p signal rate Hr Hn) as [fs' [Hs Hl]].
  eexists fs', _; split; [exact Hs|]; split; [exact Hl|].
  apply Forall2_map_r; intros x _.
  assert (H32767 : Int_part 32767 = 32767%Z) by (apply Int_part_eq; lra).
  split; [|split].
  - intro Hx; rewrite Rmax_right by lra; rewrite Rmin_left by lra.
    unfold py_int; rewrite Rmult_1_l.
    destruct (Rle_dec 0 32767) as [_|N]; [|lra]; rewrite H32767; reflexivity.
  - intro Hx; rewrite Rmax_left by lra; rewrite Rmin_right by lra.
    unfold py_int; destruct (Rle_dec 0 (-1 * 32767)) as [N|_]; [lra|].
    replace (- (-1 * 32767)) with 32767 by ring; rewrite H32767.
    rewrite opp_IZR; field.
  - set (c := Rmin 1 (Rmax (-1) x)).
    assert (Hc : -1 <= c <= 1).
    { unfold c, Rmin, Rmax; destruct (Rle_dec (-1) x); destruct (Rle_dec 1 _); lra. }
    destruct (py_int_bounds (c * 32767)) as [_ Hb].
    unfold Rdiv; rewrite Rabs_mult, (Rabs_pos_eq (/ 32768)) by lra.
    apply Rmult_le_compat_r; [lra|].
    eapply Rle_trans; [exact Hb|]; rewrite Rabs_mult, (Rabs_pos_eq 32767) by lra.
    apply Rabs_le in Hc; nra.
Qed.

(** ** Datasets *)

Lemma load_err_cases : forall fs p e,
  load_wav_mono fs p = Err e ->
  e = FileNotFoundError "Audio file not found" \/ e = WaveError "bad header" \/
  e = ValueError "Unsupported sample width" \/
  e = ValueError "bytes length not a multiple of item size".
Proof.
  intros fs p e H; unfold load_wav_mono in H.
  destruct (fs p) as [f|]; [|injection H; auto].
  destruct (_ || _); [injection H; auto|].
  destruct (decoded_frames f) as [a|e'] eqn:Hd; cbn [bind] in H; [discriminate|].
  injection H as <-; unfold decoded_frames in Hd.
  destruct (supported_typecode (sampwidth f)); [|injection Hd; auto].
  unfold array_frombytes in Hd; destruct (Nat.eqb _ 0); cbn [bind] in Hd;
    [discriminate | injection Hd; auto].
Qed.

Lemma extract_err_zero : forall cfg s sr e,
  extract cfg s sr = Err e -> e = ZeroDivisionError.
Proof.
  intros cfg s sr e H.
  destruct (prepared_signal_cases cfg s sr) as [[_ [_ [_ Hp]]] | [s' [Hp _]]].
  - unfold extract in H; rewrite Hp in H; cbn [bind] in H; injection H; auto.
  - destruct s' as [|x rest].
    + unfold extract in H; rewrite Hp in H; cbn [bind] in H; discriminate.
    + pose proof (extract_nonempty_err cfg s sr (x :: rest) e Hp ltac:(discriminate) H) as Hm.
      destruct (map_result_err _ _ _ Hm) as [f [_ Hf]].
      exact (proj1 (average_power_err (x :: rest) f _ _ ltac:(discriminate) Hf)).
Qed.

(** The exceptions a sample can raise on its way through decoding,
    feature extraction and prediction. *)
Definition sample_error (e : exn) : Prop :=
  e = FileNotFoundError "Audio file not found" \/ e = WaveError "bad header" \/
  e = ValueError "Unsupported sample width" \/
  e = ValueError "bytes length not a multiple of item size" \/
  e = ZeroDivisionError \/ e = IndexError \/
  e = RuntimeError "Recognizer must be fitted before calling predict_sample".

Lemma fit_loop_err : forall fs cfg ds embs trs e,
  fit_loop fs cfg ds embs trs = Err e -> sample_error e.
Proof.
  intros fs cfg ds; induction ds as [|s ds IH]; intros embs trs e H; simpl in H;
    [discriminate|].
  destruct (load_wav_mono fs (path s)) as [[sig sr]|e'] eqn:Hl; cbn [bind] in H.
  - destruct (extract cfg sig sr) as [feats|e'] eqn:Hx; cbn [bind] in H.
    + exact (IH _ _ _ H).
    + injection H as <-; apply extract_err_zero in Hx; subst; unfold sample_error; tauto.
  - injection H as <-; apply load_err_cases in Hl; unfold sample_error; tauto.
Qed.

Lemma py_index_err : forall {A : Type} (xs : list A) k e, py_index xs k = Err e -> e = IndexError.
Proof.
  intros A xs k e H; unfold py_index in H.
  destruct (_ && _); [destruct (nth_error _ _); congruence|].
  destruct (_ && _); [destruct (nth_error _ _); congruence | congruence].
Qed.

Lemma predict_sample_err : forall fs sample st e st',
  predict_sample fs sample st = (Err e, st') -> sample_error e.
Proof.
  intros fs sample st e st' H; unfold predict_sample, mbind, get, lift, raise, ret in H;
    simpl in H.
  destruct (negb (is_fitted st)); [injection H as <- _; unfold sample_error; tauto|].
  destruct (load_wav_mono fs (path sample)) as [[sig sr]|e'] eqn:Hl.
  2:{ injection H as <- _; apply load_err_cases in Hl; unfold sample_error; tauto. }
  destruct (extract (feature_extractor st) sig sr) as [f|e'] eqn:Hx.
  2:{ injection H as <- _; apply extract_err_zero in Hx; subst; unfold sample_error; tauto. }
  destruct (scan (embeddings st) (normalize f)) as [bi bs].
  destruct (py_index (transcripts st) bi) as [t|e'] eqn:Hi; [discriminate|].
  injection H as <- _; apply py_index_err in Hi; subst; unfold sample_error; tauto.
Qed.

Lemma transcribe_err : forall fs samples st e st',
  transcribe fs samples st = (Err e, st') -> sample_error e.
Proof.
  intros fs samples; unfold transcribe; induction samples as [|s ss IH]; intros st e st' H;
    simpl in H; [discriminate|].
  unfold mbind at 1 in H.
  destruct (predict_sample fs s st) as [[r|e'] st1] eqn:Hp.
  - unfold mbind in H; destruct (mapM (predict_sample fs) ss st1) as [[rs|e''] st2] eqn:Hm;
      [discriminate|].
    injection H as <- _; exact (IH _ _ _ Hm).
  - injection H as <- _; exact (predict_sample_err _ _ _ _ _ Hp).
Qed.

(** A dataset built by [AudioDataset] is never empty, so the empty-input
    guards of [fit] and [evaluate_recognizer] are unreachable from it: each
    exception they raise comes from one sample's decoding, feature
    extraction or prediction.  A successful [fit] stores exactly the
    dataset's [transcripts()]. *)
Theorem dataset_empty_guards_unreachable : forall fs samples ds st,
  audio_dataset samples = Ok ds ->
  (forall e st', fit fs ds st = (Err e, st') -> sample_error e) /\
  (forall e st', evaluate_recognizer fs ds st = (Err e, st') -> sample_error e) /\
  (forall u st', fit fs ds st = (Ok u, st') -> transcripts st' = dataset_transcripts ds).
Proof.
  intros fs samples ds st Hds.
  assert (Hne : ds <> []) by (destruct samples; simpl in Hds; [discriminate | injection Hds as <-; discriminate]).
  split; [|split].
  - intros e st' H; unfold fit, mbind, get, lift in H; simpl in H.
    destruct (fit_loop fs (feature_extractor st) ds [] []) as [[embs trs]|e'] eqn:Hf.
    + apply fit_loop_shape in Hf; destruct Hf as [_ HE]; simpl in HE.
      destruct embs as [|x xs]; [destruct ds; [congruence | discriminate]|].
      unfold set_embeddings, set_transcripts in H; discriminate.
    + injection H as <- _; exact (fit_loop_err _ _ _ _ _ _ Hf).
  - intros e st' H; unfold evaluate_recognizer, mbind at 1 in H.
    destruct (transcribe fs ds st) as [[results|e'] st1] eqn:Ht.
    + apply transcribe_ok_inv in Ht; destruct Ht as [_ Hm].
      destruct results as [|r rs]; [simpl in Hm; congruence|].
      simpl (Z.of_nat (length (r :: rs)) =? 0)%Z in H.
      unfold mbind, lift in H; rewrite py_div_ok in H by (apply not_0_IZR; simpl; lia).
      unfold ret in H; discriminate.
    + injection H as <- _; exact (transcribe_err _ _ _ _ _ Ht).
  - intros u st' H; unfold fit, mbind, get, lift in H; simpl in H.
    destruct (fit_loop fs (feature_extractor st) ds [] []) as [[embs trs]|e] eqn:Ef;
      [|discriminate].
    apply fit_loop_shape in Ef; simpl in Ef; destruct Ef as [-> _].
    destruct embs as [|x xs]; [discriminate|].
    unfold set_embeddings, set_transcripts in H; injection H as _ <-; reflexivity.
Qed.

(* ------------------------------------------------------------------ *)
(** * Further concrete instances *)

Lemma zeros_8 : Forall (fun x => x = 0) (repeat 0 8).
Proof.
  apply Forall_forall; intros x Hx; apply repeat_spec in Hx; exact Hx.
Qed.

Lemma load_probe : load_wav_mono fs0 "probe.wav" = Ok ([], 16000%Z).
Proof. reflexivity. Qed.

Lemma extract_probe : extract default_extractor [] 16000 = Ok (repeat 0 8).
Proof. reflexivity. Qed.

(** The empty probe against the single reference: similarity 0. *)
Lemma predict_sample0 :
  predict_sample fs0 sample0 st_fitted =
    (Ok (mk_recognition_result sample0 "calm" 1), st_fitted).
Proof.
  unfold predict_sample, mbind, get, lift.
  change (is_fitted st_fitted) with true; cbn [negb].
  change (path sample0) with "probe.wav"%string; rewrite load_probe.
  change (feature_extractor st_fitted) with default_extractor; rewrite extract_probe.
  rewrite normalize_zeros.
  rewrite (scan_all_zero (embeddings st_fitted) _ ltac:(discriminate) zeros_8).
  change (py_index (transcripts st_fitted) 0) with (Ok (A := string) "calm"%string).
  unfold ret; repeat f_equal; ring.
Qed.

Lemma transcribe0 :
  transcribe fs0 [sample0] st_fitted =
    (Ok [mk_recognition_result sample0 "calm" 1], st_fitted).
Proof.
  unfold transcribe; cbn [mapM]; unfold mbind at 1; rewrite predict_sample0; reflexivity.
Qed.

Lemma evaluate0 : exists rep, evaluate_recognizer fs0 [sample0] st_fitted = (Ok rep, st_fitted).
Proof.
  unfold evaluate_recognizer, mbind at 1; rewrite transcribe0.
  simpl (Z.of_nat (length _) =? 0)%Z; cbv iota.
  unfold mbind, lift; rewrite py_div_ok by (apply not_0_IZR; discriminate).
  eexists; reflexivity.
Qed.

Lemma fit0 :
  fit fs0 [sample0] (init_state default_extractor) =
    (Ok tt, mk_rec_state default_extractor [repeat 0 8] ["calm"%string]).
Proof.
  unfold fit, mbind, get, lift.
  assert (Hf : fit_loop fs0 default_extractor [sample0] [] [] = Ok ([repeat 0 8], ["calm"%string])).
  { cbn [fit_loop]; change (path sample0) with "probe.wav"%string; rewrite load_probe.
    cbn [bind]; rewrite extract_probe; cbn [bind]; rewrite normalize_zeros; reflexivity. }
  change (feature_extractor (init_state default_extractor)) with default_extractor.
  rewrite Hf; reflexivity.
Qed.

Lemma evaluate_confusion_counts_witness :
  exists rep, evaluate_recognizer fs0 [sample0] st_fitted = (Ok rep, st_fitted) /\
    exists results, transcribe fs0 [sample0] st_fitted = (Ok results, st_fitted) /\
      total_samples rep = Z.of_nat (length results) /\
      forall t p, confusion_lookup (confusion rep) t p =
        (if Nat.eqb (count_pair results t p) 0 then None
         else Some (Z.of_nat (count_pair results t p))).
Proof.
  destruct evaluate0 as [rep E]; exists rep; split; [exact E|].
  exact (evaluate_confusion_counts fs0 [sample0] st_fitted rep st_fitted E).
Defined.

Lemma evaluate_accuracy_range_witness :
  exists rep, evaluate_recognizer fs0 [sample0] st_fitted = (Ok rep, st_fitted) /\
    (0 < total_samples rep)%Z /\ 0 <= accuracy rep <= 1.
Proof.
  destruct evaluate0 as [rep E]; exists rep; split; [exact E|].
  exact (evaluate_accuracy_range fs0 [sample0] st_fitted rep st_fitted E).
Defined.

Lemma transcribe_results_order_witness :
  st_fitted = st_fitted /\
  map rr_sample [mk_recognition_result sample0 "calm" 1] = [sample0].
Proof.
  exact (transcribe_results_order fs0 [sample0] st_fitted _ st_fitted transcribe0).
Defined.

Lemma unfitted_transcribe_evaluate_witness :
  transcribe fs0 [sample0] (init_state default_extractor) =
    (Err (RuntimeError "Recognizer must be fitted before calling predict_sample"),
     init_state default_extractor) /\
  evaluate_recognizer fs0 [sample0] (init_state default_extractor) =
    (Err (RuntimeError "Recognizer must be fitted before calling predict_sample"),
     init_state default_extractor).
Proof.
  apply (proj1 (unfitted_transcribe_evaluate fs0 [sample0] (init_state default_extractor)));
    [reflexivity | discriminate].
Defined.

Lemma fit_success_shape_witness :
  let st' := mk_rec_state default_extractor [repeat 0 8] ["calm"%string] in
  transcripts st' = map transcript [sample0] /\
  length (embeddings st') = length [sample0] /\
  feature_extractor st' = feature_extractor (init_state default_extractor) /\
  is_fitted st' = true.
Proof.
  exact (proj2 (fit_success_shape fs0 [sample0] (init_state default_extractor)) tt _ fit0).
Defined.

Lemma fit_replaces_references_witness :
  fst (fit fs0 [sample0] (init_state default_extractor)) = fst (fit fs0 [sample0] st_fitted) /\
  (fst (fit fs0 [sample0] (init_state default_extractor)) = Ok tt ->
   snd (fit fs0 [sample0] (init_state default_extractor)) = snd (fit fs0 [sample0] st_fitted)).
Proof.
  apply (fit_replaces_references fs0 [sample0] (init_state default_extractor) st_fitted).
  reflexivity.
Defined.

Lemma predict_silent_query_witness :
  predict_sample fs0 sample0 st_fitted =
    (Ok (mk_recognition_result sample0 (nth 0 (transcripts st_fitted) ""%string) 1), st_fitted).
Proof.
  apply (predict_silent_query fs0 sample0 st_fitted 16000 st_fitted_inv);
    [discriminate | reflexivity].
Defined.

Lemma zero_crossing_rate_range_witness : 0 <= 1 <= 1.
Proof.
  exact (zero_crossing_rate_range [0; 1] 1 (proj1 zcr_0_1)).
Defined.

Lemma extract_feature_ranges_witness :
  exists mean_abs std variance zcr powers,
    repeat 0 8 = [mean_abs; std; variance; zcr] ++ powers /\
    0 <= mean_abs /\ 0 <= variance /\ std = sqrt variance /\ 0 <= zcr <= 1 /\
    Forall2 (fun f p => 0 <= p /\ (f <= 0 -> p = 0)) (probe_frequencies default_extractor) powers.
Proof.
  exact (extract_feature_ranges default_extractor [] 16000 _ extract_probe).
Defined.

Lemma load_wav_errors_witness :
  load_wav_mono fs0 "missing.wav" = Err (FileNotFoundError "Audio file not found").
Proof.
  apply (proj1 (load_wav_errors fs0 "missing.wav")); reflexivity.
Defined.

Lemma load_wav_range_witness :
  exists signal, load_wav_mono fs_min "min.wav" = Ok (signal, 44100%Z) /\
    Forall (fun x => -1 <= x < 1) signal.
Proof.
  eexists; split; [reflexivity|].
  apply (load_wav_range fs_min "min.wav" (mk_wav 1 2 44100 1 [0%Z; 128%Z]) _ 44100);
    [reflexivity | repeat constructor; unfold is_byte; lia | reflexivity].
Defined.

Lemma save_wav_clipping_witness :
  exists fs' loaded, save_wav_mono fs0 "out.wav" [2; -3] 16000 = Ok fs' /\
    load_wav_mono fs' "out.wav" = Ok (loaded, 16000%Z) /\
    Forall2 (fun x y => (1 <= x -> y = 32767 / 32768) /\ (x <= -1 -> y = - 32767 / 32768) /\
                        Rabs y <= 32767 / 32768) [2; -3] loaded.
Proof.
  apply (save_wav_clipping fs0 "out.wav" [2; -3] 16000); simpl; lia.
Defined.

Lemma dataset_empty_guards_unreachable_witness :
  (forall e st', fit fs0 [sample0] st_fitted = (Err e, st') -> sample_error e) /\
  (forall e st', evaluate_recognizer fs0 [sample0] st_fitted = (Err e, st') -> sample_error e) /\
  (forall u st', fit fs0 [sample0] st_fitted = (Ok u, st') ->
     transcripts st' = dataset_transcripts [sample0]).
Proof.
  apply (dataset_empty_guards_unreachable fs0 [sample0] [sample0] st_fitted); reflexivity.
Defined.
